(** * PDF-to-record matching engine: a shallow embedding of [matcher.py]

    The development follows [src/match_pdfs_title_doi/matcher.py]:
    [TextNormalizer], [PDFNameAnalyzer], [PDFScanner], [PDFMatcher] and the
    two result containers [MatchResult] and [BatchMatchResult].

    Modelling conventions.
    - A Python [str] is a [text], a list of 8-bit characters read as the code
      points 0..255.  On that range [str.lower] only moves [A-Z] and the
      upper-case Latin-1 letters, and the regex class [\d] is [0-9].  The
      message literals of the source are kept as their UTF-8 bytes.
    - A [dict] is an association list in insertion order with distinct keys
      (iteration order of a Python dict is insertion order, and the order
      decides the order of the collected paths).
    - A [Path] is the text of the path, with the stem given beside it.
    - Calls to the logger do not influence any returned value and are left
      out, together with the local [match_method] that only feeds them.
    - [match_rate] is a quotient of two integers; it is kept as an exact
      rational. *)

From Stdlib Require Import String Ascii List Bool Arith ZArith Lia QArith.
From Stdlib Require Import DecimalString.
From Equations.Prop Require Import Equations Logic.
Import ListNotations.

Open Scope string_scope.
Open Scope list_scope.
Open Scope nat_scope.

(** ** Text *)

Definition text := list ascii.

Definition str (s : string) : text := list_ascii_of_string s.

Fixpoint text_eqb (a b : text) : bool :=
  match a, b with
  | [], [] => true
  | x :: a', y :: b' => Ascii.eqb x y && text_eqb a' b'
  | _, _ => false
  end.

Definition in_range (lo hi c : ascii) : bool :=
  Ascii.leb lo c && Ascii.leb c hi.

(** [str.startswith] *)
Fixpoint startswith (s p : text) {struct p} : bool :=
  match p with
  | [] => true
  | a :: p' =>
      match s with
      | [] => false
      | b :: s' => Ascii.eqb a b && startswith s' p'
      end
  end.

(** [sub in s] on strings *)
Fixpoint contains (sub s : text) : bool :=
  startswith s sub ||
  match s with
  | [] => false
  | _ :: t => contains sub t
  end.

(** [str.lower] on code points below 256: [A-Z], and the Latin-1 capitals
    U+00C0..U+00DE except the multiplication sign U+00D7, move up by 32. *)
Definition lower_char (c : ascii) : ascii :=
  if in_range "A" "Z" c
     || (in_range (ascii_of_nat 192) (ascii_of_nat 222) c
         && negb (Ascii.eqb c (ascii_of_nat 215)))
  then ascii_of_nat (nat_of_ascii c + 32)
  else c.

Definition lower (t : text) : text := map lower_char t.

Definition is_az (c : ascii) : bool := in_range "a" "z" c.
Definition is_digit (c : ascii) : bool := in_range "0" "9" c.
Definition is_az09 (c : ascii) : bool := is_az c || is_digit c.
Definition is_hex (c : ascii) : bool :=
  in_range "0" "9" c || in_range "a" "f" c || in_range "A" "F" c.

(** [re.search]: the least offset at which the pattern matches. *)
Fixpoint re_search (matches_at : text -> bool) (s : text) : option nat :=
  if matches_at s then Some 0
  else match s with
       | [] => None
       | _ :: t => option_map S (re_search matches_at t)
       end.

(** ** TextNormalizer *)

Definition normalize (t : text) (remove_numbers : bool) : text :=
  match t with
  | [] => []
  | _ =>
      let t := lower t in
      if remove_numbers then filter is_az t else filter is_az09 t
  end.

(** The greedy run [[0-9a-fA-F]+] : what is left after the hex digits. *)
Fixpoint drop_hex (s : text) : text :=
  match s with
  | c :: t => if is_hex c then drop_hex t else s
  | [] => []
  end.

(** A match of [#x[0-9a-fA-F]+;] at the head of [s], giving the rest of
    [s] behind the match.  The run of hex digits is followed by [;], which
    is no hex digit, so only the longest run can be the one matched. *)
Definition match_encoding (s : text) : option text :=
  match s with
  | c1 :: c2 :: h :: r =>
      if Ascii.eqb c1 "#" && Ascii.eqb c2 "x" && is_hex h then
        match drop_hex r with
        | c :: t => if Ascii.eqb c ";" then Some t else None
        | [] => None
        end
      else None
  | _ => None
  end.

(** [re.sub(r'#x[0-9a-fA-F]+;', '', filename)]: one pass from the left; a
    match is dropped and the scan goes on behind it, any other character
    is copied. *)
Equations? remove_special_encoding (s : text) : text by wf (length s) lt :=
  remove_special_encoding s with inspect (match_encoding s) => {
    | exist _ (Some r) _ => remove_special_encoding r
    | exist _ None _ with s => {
        | [] => []
        | c :: t => c :: remove_special_encoding t } }.
Proof.
  destruct s as [|a [|b [|h t]]]; simpl in *; try discriminate.
  destruct (Ascii.eqb a "#" && Ascii.eqb b "x" && is_hex h); try discriminate.
  assert (L : forall u, length (drop_hex u) <= length u).
  { induction u as [|x u IH]; simpl; [lia|].
    destruct (is_hex x); simpl; lia. }
  specialize (L t).
  destruct (drop_hex t) as [|c u]; try discriminate.
  destruct (Ascii.eqb c ";"); try discriminate.
  match goal with H : Some _ = Some _ |- _ => injection H as <- end.
  simpl in *. lia.
Qed.

(** [re.search(r'#x[0-9a-fA-F]+;', s) is not None] *)
Definition has_encoding (s : text) : bool :=
  match re_search
          (fun u => match match_encoding u with Some _ => true | None => false end)
          s with
  | Some _ => true
  | None => false
  end.

(** The strings the pattern stands for: [#x], one or more hex digits, [;]. *)
Definition is_encoding (tok : text) : Prop :=
  exists h, tok = str "#x" ++ h ++ str ";" /\ h <> [] /\ forallb is_hex h = true.

(** ** PDFNameAnalyzer *)

Definition DOI_PREFIXES : list text :=
  [str "isj."; str "j.1365-2575"; str "10."].

Definition _is_doi_format (name : text) : bool :=
  let name_lower := lower name in
  existsb (fun prefix => startswith name_lower prefix) DOI_PREFIXES.

Definition _build_full_doi (name : text) : text :=
  if startswith name (str "isj.") then str "10.1111/" ++ name
  else if startswith name (str "j.1365-2575") then str "10.1111/" ++ name
  else if startswith name (str "10.") then name
  else name.

(** [_(\d{4})_] at the head of [s] *)
Definition year_mid_at (s : text) : bool :=
  match s with
  | u :: d1 :: d2 :: d3 :: d4 :: v :: _ =>
      Ascii.eqb u "_" && is_digit d1 && is_digit d2 && is_digit d3
      && is_digit d4 && Ascii.eqb v "_"
  | _ => false
  end.

(** [_(\d{4})$] at the head of [s]; [$] holds at the end of the string and
    before a newline that ends it. *)
Definition year_end_at (s : text) : bool :=
  match s with
  | u :: d1 :: d2 :: d3 :: d4 :: rest =>
      Ascii.eqb u "_" && is_digit d1 && is_digit d2 && is_digit d3
      && is_digit d4
      && match rest with
         | [] => true
         | [nl] => Ascii.eqb nl (ascii_of_nat 10)
         | _ => false
         end
  | _ => false
  end.

Definition _extract_title_part (name : text) : text :=
  match re_search year_mid_at name with
  | Some start => firstn start name
  | None =>
      match re_search year_end_at name with
      | Some start => firstn start name
      | None => name
      end
  end.

Definition analyze (pdf_name : text) : text * text * bool :=
  let cleaned_name := remove_special_encoding pdf_name in
  let is_doi := _is_doi_format cleaned_name in
  if is_doi then
    let full_doi := _build_full_doi cleaned_name in
    let normalized_doi := normalize full_doi false in
    let normalized_title := normalize cleaned_name true in
    (normalized_title, normalized_doi, true)
  else
    let title_part := _extract_title_part cleaned_name in
    let normalized_title := normalize title_part true in
    let normalized_doi := normalize cleaned_name false in
    (normalized_title, normalized_doi, false).

(** ** Records and results *)

Definition path := text.

(** [Record.data] with [Record.get]; every value is text. *)
Record LitRecord := {
  data : list (text * text);
  source_id : option text
}.

Fixpoint dict_get {V : Type} (d : list (text * V)) (key : text) (default : V) : V :=
  match d with
  | [] => default
  | (k, v) :: rest => if text_eqb k key then v else dict_get rest key default
  end.

Definition get (r : LitRecord) (key : text) (default : text) : text :=
  dict_get (data r) key default.

Record DataSourceResult := {
  records : list LitRecord;
  headers : list text;
  ds_source_name : text
}.

Inductive MatchStatus := MATCHED | UNMATCHED | MULTI_MATCHED.

Definition status_eqb (a b : MatchStatus) : bool :=
  match a, b with
  | MATCHED, MATCHED | UNMATCHED, UNMATCHED | MULTI_MATCHED, MULTI_MATCHED => true
  | _, _ => false
  end.

Record MatchResult := {
  record_index : nat;
  record : LitRecord;
  status : MatchStatus;
  matched_pdfs : list path;
  reason : text
}.

Record BatchMatchResult := {
  source_name : text;
  total_records : nat;
  total_pdfs : nat;
  results : list MatchResult
}.

Definition matched_results (b : BatchMatchResult) : list MatchResult :=
  filter (fun r => status_eqb (status r) MATCHED) (results b).

Definition unmatched_results (b : BatchMatchResult) : list MatchResult :=
  filter (fun r => status_eqb (status r) UNMATCHED) (results b).

Definition multi_matched_results (b : BatchMatchResult) : list MatchResult :=
  filter (fun r => status_eqb (status r) MULTI_MATCHED) (results b).

Definition matched_count (b : BatchMatchResult) : nat := length (matched_results b).
Definition unmatched_count (b : BatchMatchResult) : nat := length (unmatched_results b).
Definition multi_matched_count (b : BatchMatchResult) : nat :=
  length (multi_matched_results b).

(** [matched_count / total_records], guarded against a zero total. *)
Definition match_rate (b : BatchMatchResult) : Q :=
  if total_records b =? 0 then 0%Q
  else (Z.of_nat (matched_count b) # Pos.of_nat (total_records b))%Q.

(** ** PDFScanner *)

(** What [directory.glob(pattern)] yields: path, stem and [is_file()] of
    each entry, and whether the iteration ended by raising.  An exception
    is caught inside [scan_directory]: the entries seen before it stay in
    the mapping, which is returned as usual. *)
Record DirEntry := {
  entry_path : path;
  stem : text;
  is_file : bool
}.

Record Listing := {
  yielded : list DirEntry;
  raised : bool
}.

Inductive Directory :=
| Missing
| Present (flat deep : Listing).

(** [d[key] = value] on an insertion-ordered dict *)
Fixpoint dict_set {V : Type} (d : list (text * V)) (key : text) (value : V)
  : list (text * V) :=
  match d with
  | [] => [(key, value)]
  | (k, v) :: rest =>
      if text_eqb k key then (k, value) :: rest
      else (k, v) :: dict_set rest key value
  end.

Definition scan_directory (directory : Directory) (recursive : bool)
  : list (text * path) :=
  match directory with
  | Missing => []
  | Present flat deep =>
      let listing := if recursive then deep else flat in
      fold_left
        (fun pdf_files item =>
           if is_file item then dict_set pdf_files (stem item) (entry_path item)
           else pdf_files)
        (yielded listing) []
  end.

(** ** PDFMatcher *)

Record PDFMatcher := {
  title_column : text;
  doi_column : text
}.

Definition index := list (text * list (text * path)).

(** [idx[key].append(entry)] on a [defaultdict(list)] *)
Fixpoint index_append (idx : index) (key : text) (entry : text * path) : index :=
  match idx with
  | [] => [(key, [entry])]
  | (k, l) :: rest =>
      if text_eqb k key then (k, l ++ [entry]) :: rest
      else (k, l) :: index_append rest key entry
  end.

(** The file [entry] is listed under [key] in the index. *)
Definition index_has (idx : index) (key : text) (entry : text * path) : Prop :=
  exists l, In (key, l) idx /\ In entry l.

(** The paths of the entries that pass [test], in the order of the index:
    what the loops of [_match_single_record] are meant to gather. *)
Definition locations_of (test : text -> bool) (idx : index) : list path :=
  flat_map (fun kv => map snd (snd kv)) (filter (fun kv => test (fst kv)) idx).

(** Truth value of a string or a list: false exactly when empty. *)
Definition truthy {A : Type} (l : list A) : bool :=
  match l with [] => false | _ => true end.

(** One round of the loop over [pdf_files.items()]. *)
Definition index_step (acc : index * index) (item : text * path) : index * index :=
  let '(title_index, doi_index) := acc in
  let '(pdf_name, pdf_path) := item in
  let '(norm_title, norm_doi, is_doi) := analyze pdf_name in
  let title_index :=
    if truthy norm_title && negb is_doi && (10 <=? length norm_title)
    then index_append title_index norm_title (pdf_name, pdf_path)
    else title_index in
  let doi_index :=
    if truthy norm_doi
    then index_append doi_index norm_doi (pdf_name, pdf_path)
    else doi_index in
  (title_index, doi_index).

Definition build_indexes (pdf_files : list (text * path)) : index * index :=
  fold_left index_step pdf_files ([], []).

(** The test of one DOI-index entry against the normalized DOI of the record. *)
Definition doi_entry_matches (norm_doi pdf_norm_doi : text) : bool :=
  truthy pdf_norm_doi && (5 <=? length pdf_norm_doi)
  && (text_eqb norm_doi pdf_norm_doi || contains pdf_norm_doi norm_doi).

(** The test of one title-index entry against the normalized title. *)
Definition title_entry_matches (norm_title pdf_norm_title : text) : bool :=
  truthy pdf_norm_title && startswith norm_title pdf_norm_title.

(** [for key, pdf_list in idx.items(): if test(key): matching_pdfs.extend(...)] *)
Definition collect (test : text -> bool) (idx : index) (matching_pdfs : list path)
  : list path :=
  fold_left
    (fun acc (kv : text * list (text * path)) =>
       if test (fst kv) then acc ++ map snd (snd kv) else acc)
    idx matching_pdfs.

(** Step 1 of [_match_single_record]: the DOI phase. *)
Definition doi_phase (self : PDFMatcher) (r : LitRecord) (doi_index : index)
  : list path :=
  let doi_value := get r (doi_column self) [] in
  if truthy doi_value then
    let norm_doi := normalize doi_value false in
    if 5 <=? length norm_doi
    then collect (doi_entry_matches norm_doi) doi_index []
    else []
  else [].

(** Step 2 of [_match_single_record]: the title phase, on what step 1 left. *)
Definition title_phase (self : PDFMatcher) (r : LitRecord) (title_index : index)
  (matching_pdfs : list path) : list path :=
  let title_value := get r (title_column self) [] in
  if negb (truthy matching_pdfs) && truthy title_value then
    let norm_title := normalize title_value true in
    collect (title_entry_matches norm_title) title_index matching_pdfs
  else matching_pdfs.

(** [list(dict.fromkeys(l))]: the first occurrence of each element, in order. *)
Fixpoint fromkeys (l : list path) : list path :=
  match l with
  | [] => []
  | p :: t => p :: filter (fun q => negb (text_eqb q p)) (fromkeys t)
  end.

Definition decimal (n : nat) : text :=
  str (NilEmpty.string_of_uint (Nat.to_uint n)).

Definition _match_single_record (self : PDFMatcher) (idx : nat) (r : LitRecord)
  (title_index doi_index : index) : MatchResult :=
  let matching_pdfs := doi_phase self r doi_index in
  let matching_pdfs := title_phase self r title_index matching_pdfs in
  let matching_pdfs := fromkeys matching_pdfs in
  match length matching_pdfs with
  | 0 =>
      {| record_index := idx; record := r; status := UNMATCHED;
         matched_pdfs := []; reason := str "未找到匹配的 PDF 文件" |}
  | 1 =>
      {| record_index := idx; record := r; status := MATCHED;
         matched_pdfs := matching_pdfs; reason := [] |}
  | _ =>
      {| record_index := idx; record := r; status := MULTI_MATCHED;
         matched_pdfs := matching_pdfs;
         reason := str "匹配到 " ++ decimal (length matching_pdfs)
                   ++ str " 个 PDF 文件" |}
  end.

(** [[f(idx, x) for idx, x in enumerate(l)]], counting from [start]. *)
Fixpoint enumerate_map {A B : Type} (f : nat -> A -> B) (start : nat) (l : list A)
  : list B :=
  match l with
  | [] => []
  | x :: t => f start x :: enumerate_map f (S start) t
  end.

Definition match_all (self : PDFMatcher) (pdfs_dir : Directory)
  (data_result : DataSourceResult) (interactive recursive_scan : bool)
  : BatchMatchResult :=
  let pdf_files := scan_directory pdfs_dir recursive_scan in
  let result := {| source_name := ds_source_name data_result;
                   total_records := length (records data_result);
                   total_pdfs := length pdf_files;
                   results := [] |} in
  match pdf_files with
  | [] =>
      {| source_name := source_name result;
         total_records := total_records result;
         total_pdfs := total_pdfs result;
         results := results result ++
           enumerate_map
             (fun idx r =>
                {| record_index := idx; record := r; status := UNMATCHED;
                   matched_pdfs := []; reason := str "目录中没有 PDF 文件" |})
             0 (records data_result) |}
  | _ =>
      let '(title_index, doi_index) := build_indexes pdf_files in
      {| source_name := source_name result;
         total_records := total_records result;
         total_pdfs := total_pdfs result;
         results := results result ++
           enumerate_map
             (fun idx r => _match_single_record self idx r title_index doi_index)
             0 (records data_result) |}
  end.

(** The shape every outcome is meant to have: the status tells the number
    of locations, no location occurs twice, and an outcome that is not a
    single match carries a reason. *)
Definition outcome_invariant (o : MatchResult) : Prop :=
  (matched_pdfs o = [] <-> status o = UNMATCHED)
  /\ (length (matched_pdfs o) = 1 <-> status o = MATCHED)
  /\ (2 <= length (matched_pdfs o) <-> status o = MULTI_MATCHED)
  /\ (status o = UNMATCHED \/ status o = MULTI_MATCHED -> reason o <> [])
  /\ NoDup (matched_pdfs o).

(** The outcome that [match_all] gives every record when no file was found. *)
Definition no_files_outcome (idx : nat) (r : LitRecord) : MatchResult :=
  {| record_index := idx; record := r; status := UNMATCHED;
     matched_pdfs := []; reason := str "目录中没有 PDF 文件" |}.

(** ** The scenario of [test_pdf_matcher] *)

Definition pdf_entry (name : string) : DirEntry :=
  {| entry_path := str ("/pdfs/" ++ name ++ ".pdf");
     stem := str name;
     is_file := true |}.

Definition test_pdf_dir : Directory :=
  let listing :=
    {| yielded := [pdf_entry "A-computer-vision-based_2024_DSS";
                   pdf_entry "isj.12345"];
       raised := false |} in
  Present listing listing.

Definition test_record (title doi : string) : LitRecord :=
  {| data := [(str "Title", str title); (str "DOI", str doi)];
     source_id := None |}.

Definition test_matcher : PDFMatcher :=
  {| title_column := str "Title"; doi_column := str "DOI" |}.

Definition test_record_1 : LitRecord :=
  test_record "A computer vision based concept model to recommend..."
              "10.1016/j.dss.2024.001".
Definition test_record_2 : LitRecord :=
  test_record "Some other article" "10.1111/isj.12345".
Definition test_record_3 : LitRecord :=
  test_record "Unmatched article" "10.9999/notfound".

Definition test_data_result : DataSourceResult :=
  {| records :=
       [test_record "A computer vision based concept model to recommend..."
                    "10.1016/j.dss.2024.001";
        test_record "Some other article" "10.1111/isj.12345";
        test_record "Unmatched article" "10.9999/notfound"];
     headers := [str "Title"; str "DOI"];
     ds_source_name := str "test" |}.

(** A record whose DOI field normalizes to three characters. *)
Definition short_doi_record : LitRecord :=
  test_record "Some other article" "is.j".

Definition test_title_index : index :=
  fst (build_indexes (scan_directory test_pdf_dir false)).
Definition test_doi_index : index :=
  snd (build_indexes (scan_directory test_pdf_dir false)).

Definition test_batch : BatchMatchResult :=
  match_all test_matcher test_pdf_dir test_data_result false false.

Definition empty_batch : BatchMatchResult :=
  {| source_name := str "test"; total_records := 0; total_pdfs := 0;
     results := [] |}.

(** [strips s r]: [r] is [s] with some occurrences of the pattern cut out
    and every other character kept in place. *)
Inductive strips : text -> text -> Prop :=
| strips_nil : strips [] []
| strips_keep c s r : strips s r -> strips (c :: s) (c :: r)
| strips_cut tok s r : is_encoding tok -> strips s r -> strips (tok ++ s) r.

(** The entries that the scan of a directory goes through. *)
Definition yielded_by (directory : Directory) (recursive : bool) : list DirEntry :=
  match directory with
  | Missing => []
  | Present flat deep => yielded (if recursive then deep else flat)
  end.

(** The last regular file among [entries] whose stem is [name]. *)
Definition last_file_named (name : text) (entries : list DirEntry)
  : option DirEntry :=
  find (fun e => is_file e && text_eqb (stem e) name) (rev entries).

(** A scanned name answers the DOI of a record: both normalized texts have
    at least 5 characters and the DOI key of the name occurs in the
    normalized DOI of the record. *)
Definition doi_hit (self : PDFMatcher) (r : LitRecord) (pdf_name : text) : bool :=
  let norm_doi := normalize (get r (doi_column self) []) false in
  let '(_, key, _) := analyze pdf_name in
  (5 <=? length norm_doi) && (5 <=? length key) && contains key norm_doi.

(** A scanned name answers the title of a record: the name is not
    DOI-format, its title key has at least 10 characters and begins the
    normalized title of the record. *)
Definition title_hit (self : PDFMatcher) (r : LitRecord) (pdf_name : text) : bool :=
  let norm_title := normalize (get r (title_column self) []) true in
  let '(key, _, is_doi) := analyze pdf_name in
  negb is_doi && (10 <=? length key) && startswith norm_title key.

(** What the two indexes keep true while they are filled: keys are
    distinct, no key has an empty list, and every key passes [good]. *)
Definition index_wf (good : text -> bool) (idx : index) : Prop :=
  NoDup (map fst idx)
  /\ forall k l, In (k, l) idx -> l <> [] /\ good k = true.

Definition good_title_key (k : text) : bool :=
  (10 <=? length k) && forallb is_az k.

Definition good_doi_key (k : text) : bool :=
  truthy k && forallb is_az09 k.

(** The properties [is_matched], [is_multi_matched] and [matched_pdf] of
    [MatchResult]; [None] is Python's [None]. *)
Definition is_matched (m : MatchResult) : bool := status_eqb (status m) MATCHED.

Definition is_multi_matched (m : MatchResult) : bool :=
  status_eqb (status m) MULTI_MATCHED.

Definition matched_pdf (m : MatchResult) : option path :=
  if status_eqb (status m) MATCHED && truthy (matched_pdfs m)
  then nth_error (matched_pdfs m) 0
  else None.

(** [BatchMatchResult.to_stats_dict] *)
Definition to_stats_dict (b : BatchMatchResult) : list (text * nat) :=
  [(str "total_records", total_records b);
   (str "total_pdfs", total_pdfs b);
   (str "matched", matched_count b);
   (str "unmatched", unmatched_count b);
   (str "multi_matched", multi_matched_count b)].

(** ** exporters.generate_doi_url *)

(** [str.isspace] on code points below 256: tab to carriage return, the
    four separators U+001C..U+001F, the space, U+0085 and U+00A0. *)
Definition is_space (c : ascii) : bool :=
  let n := nat_of_ascii c in
  ((9 <=? n) && (n <=? 13)) || ((28 <=? n) && (n <=? 32))
  || (n =? 133) || (n =? 160).

Fixpoint lstrip (s : text) : text :=
  match s with
  | c :: t => if is_space c then lstrip t else s
  | [] => []
  end.

Definition rstrip (s : text) : text := rev (lstrip (rev s)).

(** [str.strip()] *)
Definition strip (s : text) : text := rstrip (lstrip s).

Definition generate_doi_url (doi : text) : text :=
  if negb (truthy doi) || negb (truthy (strip doi)) then []
  else
    let doi := strip doi in
    if startswith doi (str "http") then doi
    else str "https://doi.org/" ++ doi.

(** A text without white space at either end. *)
Definition trimmed (s : text) : Prop :=
  lstrip s = s /\ lstrip (rev s) = rev s.

(** ** exporters.PDFCopier *)

(** The file system as far as [copy_matched_pdfs] uses it: [Path.exists],
    [Path.mkdir(parents=True, exist_ok=True)] ([None] when it raises),
    [shutil.copy2] (with [Some msg] when it raises, [msg] being the text
    of the exception), [Path.name] and the [/] of two paths. *)
Record FileSystem := {
  FS : Type;
  path_exists : FS -> path -> bool;
  mkdir : FS -> path -> option FS;
  copy2 : FS -> path -> path -> FS * option text;
  path_name : path -> text;
  path_join : path -> text -> path
}.

(** The [stats] dictionary of [copy_matched_pdfs]. *)
Record CopyStats := {
  total : nat;
  copied : nat;
  skipped : nat;
  failed : nat;
  copied_files : list text;
  failed_files : list (text * text)
}.

(** The name under which a source file is copied. *)
Definition dst_name_of (F : FileSystem) (uuid_field : text) (m : MatchResult)
  (src_path : path) : text :=
  if truthy uuid_field then
    let uuid_value := get (record m) uuid_field [] in
    if truthy uuid_value then uuid_value ++ str ".pdf"
    else path_name F src_path
  else path_name F src_path.

(** One round of the loop over [matched_results]. *)
Definition copy_one (F : FileSystem) (output_dir : path) (uuid_field : text)
  (overwrite : bool) (acc : FS F * CopyStats) (m : MatchResult)
  : FS F * CopyStats :=
  let '(fs, stats) := acc in
  let count_failed src msg :=
    {| total := total stats; copied := copied stats; skipped := skipped stats;
       failed := failed stats + 1; copied_files := copied_files stats;
       failed_files := failed_files stats ++ [(src, msg)] |} in
  match matched_pdf m with
  | None => (fs, count_failed (str "None") (str "源文件不存在"))
  | Some src_path =>
      if negb (path_exists F fs src_path)
      then (fs, count_failed src_path (str "源文件不存在"))
      else
        let dst_name := dst_name_of F uuid_field m src_path in
        let dst_path := path_join F output_dir dst_name in
        if path_exists F fs dst_path && negb overwrite then
          (fs, {| total := total stats; copied := copied stats;
                  skipped := skipped stats + 1; failed := failed stats;
                  copied_files := copied_files stats;
                  failed_files := failed_files stats |})
        else
          match copy2 F fs src_path dst_path with
          | (fs', None) =>
              (fs', {| total := total stats; copied := copied stats + 1;
                       skipped := skipped stats; failed := failed stats;
                       copied_files := copied_files stats ++ [dst_path];
                       failed_files := failed_files stats |})
          | (fs', Some e) => (fs', count_failed src_path e)
          end
  end.

Definition copy_matched_pdfs (F : FileSystem) (fs : FS F) (output_dir : path)
  (result : BatchMatchResult) (uuid_field : text) (overwrite : bool)
  : option (FS F * CopyStats) :=
  match mkdir F fs output_dir with
  | None => None
  | Some fs =>
      let stats := {| total := 0; copied := 0; skipped := 0; failed := 0;
                      copied_files := []; failed_files := [] |} in
      let matched_results := matched_results result in
      let stats := {| total := length matched_results; copied := copied stats;
                      skipped := skipped stats; failed := failed stats;
                      copied_files := copied_files stats;
                      failed_files := failed_files stats |} in
      Some (fold_left (copy_one F output_dir uuid_field overwrite)
              matched_results (fs, stats))
  end.

(** What the properties below ask of a file system: what exists keeps
    existing through [mkdir] and [copy2], and a copy that does not raise
    leaves its destination in existence. *)
Definition keeps_files (F : FileSystem) : Prop :=
  (forall fs dir fs' q,
      mkdir F fs dir = Some fs' ->
      path_exists F fs q = true -> path_exists F fs' q = true)
  /\ (forall fs src dst q,
         path_exists F fs q = true ->
         path_exists F (fst (copy2 F fs src dst)) q = true)
  /\ (forall fs src dst,
         snd (copy2 F fs src dst) = None ->
         path_exists F (fst (copy2 F fs src dst)) dst = true).

(** The characters of a reversed path up to its first slash. *)
Fixpoint take_until_slash (s : text) : text :=
  match s with
  | [] => []
  | c :: t => if Ascii.eqb c "/" then [] else c :: take_until_slash t
  end.

(** A file system that is a list of the paths in existence; a copy always
    works, and paths are joined with a slash. *)
Definition listed_files : FileSystem :=
  {| FS := list path;
     path_exists := fun fs p => existsb (text_eqb p) fs;
     mkdir := fun fs dir => Some (dir :: fs);
     copy2 := fun fs _ dst => (dst :: fs, None);
     path_name := fun p => rev (take_until_slash (rev p));
     path_join := fun dir name => dir ++ str "/" ++ name |}.

(** The files of the test directory as a listed file system. *)
Definition test_files : FS listed_files :=
  [str "/pdfs/A-computer-vision-based_2024_DSS.pdf"; str "/pdfs/isj.12345.pdf"].

(** What the copy loop keeps true when [overwrite] is off. *)
Definition clobber_free (F : FileSystem) (fs0 fs : FS F) (stats : CopyStats)
  : Prop :=
  NoDup (copied_files stats)
  /\ (forall p, In p (copied_files stats) ->
                path_exists F fs p = true /\ path_exists F fs0 p = false)
  /\ (forall q, path_exists F fs0 q = true -> path_exists F fs q = true).

(** ** exporters.CSVMerger *)

(** A row as [csv.DictReader] gives it for a line no longer than the
    header: a dictionary from field names to values, [None] standing for a
    field that the line lacks. *)
Definition Row := list (text * option text).

(** One input file of [merge]: its stem, its field names, the rows read
    from it, and whether reading ended by raising (the rows read before
    stay merged, the header block after the loop is not reached). *)
Record CsvFile := {
  csv_stem : text;
  fieldnames : list text;
  read_rows : list Row;
  read_raised : bool
}.

Definition truthy_value (v : option text) : bool :=
  match v with
  | Some (_ :: _) => true
  | _ => false
  end.

(** [a or b] on values *)
Definition value_or (a b : option text) : option text :=
  if truthy_value a then a else b.

Definition value_eqb (a b : option text) : bool :=
  match a, b with
  | Some x, Some y => text_eqb x y
  | None, None => true
  | _, _ => false
  end.

(** [row.get(key, '') or row.get(key.lower(), '')] *)
Definition row_key (key_column : text) (row : Row) : option text :=
  value_or (dict_get row key_column (Some []))
           (dict_get row (lower key_column) (Some [])).

(** [stem.split('_')[0]] *)
Fixpoint before_underscore (s : text) : text :=
  match s with
  | [] => []
  | c :: t => if Ascii.eqb c "_" then [] else c :: before_underscore t
  end.

(** [key in exclude_keys], the set holding strings *)
Definition excluded (exclude_keys : list text) (key : option text) : bool :=
  match key with
  | Some k => existsb (text_eqb k) exclude_keys
  | None => false
  end.

(** The body of the loop over the rows of one file; the state is
    [all_records] and [seen_keys]. *)
Definition merge_row (source_name : text) (add_source_column add_doi_link
  deduplicate : bool) (dedup_key : text) (exclude_keys : list text)
  (acc : list Row * list (option text)) (row : Row)
  : list Row * list (option text) :=
  let '(all_records, seen_keys) := acc in
  let key := row_key dedup_key row in
  if excluded exclude_keys key then acc
  else if deduplicate && existsb (value_eqb key) seen_keys then acc
  else
    let seen_keys := if deduplicate then seen_keys ++ [key] else seen_keys in
    let row :=
      if add_source_column then dict_set row (str "Source") (Some source_name)
      else row in
    let row :=
      if add_doi_link then
        let doi := value_or (dict_get row (str "DOI") (Some []))
                            (dict_get row (str "doi") (Some [])) in
        dict_set row (str "DOI_Download_Link")
          (Some (match doi with
                 | Some d => generate_doi_url d
                 | None => []
                 end))
      else row in
    (all_records ++ [row], seen_keys).

(** The loop over the files; the state is [all_records], [all_headers] and
    [seen_keys]. *)
Definition merge_file (add_source_column add_doi_link deduplicate : bool)
  (dedup_key : text) (exclude_keys : list text)
  (acc : list Row * option (list text) * list (option text)) (f : CsvFile)
  : list Row * option (list text) * list (option text) :=
  let '(all_records, all_headers, seen_keys) := acc in
  let source_name := before_underscore (csv_stem f) in
  let '(all_records, seen_keys) :=
    fold_left
      (merge_row source_name add_source_column add_doi_link deduplicate
         dedup_key exclude_keys)
      (read_rows f) (all_records, seen_keys) in
  let all_headers :=
    if read_raised f then all_headers
    else match all_headers with
         | Some h => Some h
         | None =>
             let h := fieldnames f in
             let h := if add_source_column then str "Source" :: h else h in
             let h := if add_doi_link then h ++ [str "DOI_Download_Link"] else h in
             Some h
         end in
  (all_records, all_headers, seen_keys).

(** How the writing of the output file goes: nothing raises; [mkdir] or
    [open] raises, before the file is opened; or something raises once the
    file is open. *)
Inductive WriteOutcome :=
| Completes
| RaisesBeforeOpen
| RaisesAfterOpen.

(** What a run of [merge] does to the output file: it is not opened; it is
    opened for writing (created or truncated) and nothing is written; it is
    opened and an initial part of the output with this header and these
    records is written; or the header and the records are written in
    full. *)
Inductive OutputFile :=
| Untouched
| Emptied
| Partial (header : list text) (records : list Row)
| Written (header : list text) (records : list Row).

(** What a run of [merge] leaves: the number it returns and the output
    file. *)
Record Merged := {
  merged_count : nat;
  output_file : OutputFile
}.

(** The header and the records of a write that was completed. *)
Definition merged_output (m : Merged) : option (list text * list Row) :=
  match output_file m with
  | Written h rows => Some (h, rows)
  | _ => None
  end.

(** [merge] over the files of the input directory in sorted order.  With no
    record to write it returns before the output file is opened.  Otherwise
    the directory is made and the file opened; with [all_headers] still
    [None] the call of [writeheader] raises on the file just opened; an
    exception at any point of the writing is caught and 0 is returned. *)
Definition merge (csv_files : list CsvFile) (write : WriteOutcome)
  (add_source_column add_doi_link deduplicate : bool) (dedup_key : text)
  (exclude_keys : list text) : Merged :=
  let '(all_records, all_headers, _) :=
    fold_left
      (merge_file add_source_column add_doi_link deduplicate dedup_key
         exclude_keys)
      csv_files ([], None, []) in
  match all_records with
  | [] => {| merged_count := 0; output_file := Untouched |}
  | _ =>
      match write with
      | RaisesBeforeOpen => {| merged_count := 0; output_file := Untouched |}
      | _ =>
          match all_headers with
          | None => {| merged_count := 0; output_file := Emptied |}
          | Some h =>
              match write with
              | Completes =>
                  {| merged_count := length all_records;
                     output_file := Written h all_records |}
              | _ => {| merged_count := 0; output_file := Partial h all_records |}
              end
          end
      end
  end.

(** What the loops of [merge] keep true: no record has an excluded key,
    and with [deduplicate] on the keys seen are those of the records, each
    once. *)
Definition merge_invariant (deduplicate : bool) (dedup_key : text)
  (exclude_keys : list text) (all_records : list Row)
  (seen_keys : list (option text)) : Prop :=
  (forall row, In row all_records ->
               excluded exclude_keys (row_key dedup_key row) = false)
  /\ (deduplicate = true ->
      map (row_key dedup_key) all_records = seen_keys /\ NoDup seen_keys).

(** The number of rows read from all files. *)
Definition rows_read (csv_files : list CsvFile) : nat :=
  list_sum (map (fun f => length (read_rows f)) csv_files).

(** The header that [merge] derives from the field names of a file. *)
Definition merged_header (add_source_column add_doi_link : bool) (f : CsvFile)
  : list text :=
  let h := fieldnames f in
  let h := if add_source_column then str "Source" :: h else h in
  if add_doi_link then h ++ [str "DOI_Download_Link"] else h.

(** A file whose reading raised after its first row. *)
Definition broken_csv_files : list CsvFile :=
  [{| csv_stem := str "isj_unmatched";
      fieldnames := [str "Title"; str "DOI"];
      read_rows := [[(str "Title", Some (str "First"));
                     (str "DOI", Some (str "10.1/a"))]];
      read_raised := true |}].

(** Two files of unmatched records, the second one repeating a DOI of the
    first. *)
Definition test_csv_row (title doi : string) : Row :=
  [(str "Title", Some (str title)); (str "DOI", Some (str doi))].

Definition test_csv_files : list CsvFile :=
  [{| csv_stem := str "isj_unmatched";
      fieldnames := [str "Title"; str "DOI"];
      read_rows := [test_csv_row "First" "10.1/a"; test_csv_row "Second" "10.1/b"];
      read_raised := false |};
   {| csv_stem := str "misq_unmatched";
      fieldnames := [str "Title"; str "DOI"];
      read_rows := [test_csv_row "Again" "10.1/a"; test_csv_row "Third" "10.1/c"];
      read_raised := false |}].

(** A directory with one file whose DOI-format name is in upper case. *)
Definition upper_case_dir : Directory :=
  let listing := {| yielded := [pdf_entry "ISJ.12345"]; raised := false |} in
  Present listing listing.

(** * Properties *)

(** ** Text primitives against their declarative readings *)

Lemma text_eqb_spec (a b : text) : reflect (a = b) (text_eqb a b).
Proof.
  revert b; induction a as [|x a IH]; intros [|y b]; simpl;
    try (constructor; congruence).
  destruct (Ascii.eqb_spec x y) as [->|N]; simpl.
  - destruct (IH b) as [->|N]; constructor; congruence.
  - constructor; congruence.
Qed.

Lemma text_eqb_refl (a : text) : text_eqb a a = true.
Proof. destruct (text_eqb_spec a a); congruence. Qed.

Lemma text_eqb_eq (a b : text) : text_eqb a b = true <-> a = b.
Proof. destruct (text_eqb_spec a b); split; congruence. Qed.

Lemma text_eqb_neq (a b : text) : text_eqb a b = false <-> a <> b.
Proof. destruct (text_eqb_spec a b); split; congruence. Qed.

Lemma startswith_iff (s p : text) :
  startswith s p = true <-> exists rest, s = p ++ rest.
Proof.
  revert s; induction p as [|a p IH]; intros s; simpl.
  - split; [exists s; reflexivity | reflexivity].
  - destruct s as [|b s].
    + split; [discriminate | intros [rest H]; discriminate].
    + rewrite andb_true_iff, IH. split.
      * intros [E [rest ->]]. apply Ascii.eqb_eq in E. subst. eauto.
      * intros [rest H]. injection H as -> ->. split; eauto.
        apply Ascii.eqb_refl.
Qed.

Lemma startswith_app (p rest : text) : startswith (p ++ rest) p = true.
Proof. apply startswith_iff; eauto. Qed.

Lemma contains_iff (sub s : text) :
  contains sub s = true <-> exists pre post, s = pre ++ sub ++ post.
Proof.
  induction s as [|c s IH]; simpl.
  - rewrite orb_false_r, startswith_iff. split.
    + intros [rest H]. exists [], rest. exact H.
    + intros [pre [post H]]. destruct pre; simpl in H; [eauto | discriminate].
  - rewrite orb_true_iff, startswith_iff, IH. split.
    + intros [[rest H] | [pre [post H]]].
      * exists [], rest. exact H.
      * exists (c :: pre), post. simpl. now rewrite H.
    + intros [[|x pre] [post H]]; simpl in H.
      * left. eauto.
      * right. injection H as _ H. eauto.
Qed.

Lemma truthy_false {A : Type} (l : list A) : truthy l = false <-> l = [].
Proof. destruct l; simpl; split; congruence. Qed.

Lemma truthy_true {A : Type} (l : list A) : truthy l = true <-> l <> [].
Proof. destruct l; simpl; split; congruence. Qed.

Lemma re_search_sound (m : text -> bool) (s : text) (i : nat) :
  re_search m s = Some i ->
  m (skipn i s) = true /\ i <= length s /\
  forall j, j < i -> m (skipn j s) = false.
Proof.
  revert i; induction s as [|c s IH]; intros i; simpl.
  - destruct (m []) eqn:E; [|discriminate].
    intros [= <-]. simpl. repeat split; auto; intros; lia.
  - destruct (m (c :: s)) eqn:E.
    + intros [= <-]. simpl. repeat split; auto; intros; lia.
    + destruct (re_search m s) as [k|] eqn:R; simpl; [|discriminate].
      intros [= <-]. destruct (IH k eq_refl) as (A & B & C).
      simpl. repeat split; auto; try lia.
      intros [|j] Hj; simpl; [exact E | apply C; lia].
Qed.

Lemma re_search_none (m : text -> bool) (s : text) :
  re_search m s = None -> forall j, m (skipn j s) = false.
Proof.
  induction s as [|c s IH]; simpl.
  - destruct (m []) eqn:E; [discriminate|]. intros _ [|j]; exact E.
  - destruct (m (c :: s)) eqn:E; [discriminate|].
    destruct (re_search m s) eqn:R; simpl; [discriminate|].
    intros _ [|j]; simpl; [exact E | now apply IH].
Qed.

Lemma re_search_finds (m : text -> bool) (pre rest : text) :
  m rest = true ->
  exists i, re_search m (pre ++ rest) = Some i /\ i <= length pre.
Proof.
  intros H. destruct (re_search m (pre ++ rest)) as [i|] eqn:R.
  - exists i. split; auto.
    destruct (re_search_sound _ _ _ R) as (_ & _ & C).
    destruct (Nat.le_gt_cases i (length pre)) as [L|L]; auto.
    specialize (C (length pre) L).
    rewrite skipn_app, skipn_all, Nat.sub_diag in C. simpl in C. congruence.
  - pose proof (re_search_none _ _ R (length pre)) as C.
    rewrite skipn_app, skipn_all, Nat.sub_diag in C. simpl in C. congruence.
Qed.

(** ** TextNormalizer.remove_special_encoding *)

Lemma remove_special_encoding_step (s : text) :
  remove_special_encoding s =
  match match_encoding s with
  | Some r => remove_special_encoding r
  | None =>
      match s with
      | [] => []
      | c :: t => c :: remove_special_encoding t
      end
  end.
Proof.
  funelim (remove_special_encoding s).
  - rewrite e. reflexivity.
  - reflexivity.
  - rewrite e. reflexivity.
Qed.

Lemma drop_hex_split (r : text) :
  exists h, r = h ++ drop_hex r /\ forallb is_hex h = true.
Proof.
  induction r as [|c r (h & E & F)]; simpl.
  - exists []. auto.
  - destruct (is_hex c) eqn:Hc.
    + exists (c :: h). simpl. rewrite Hc, F. split; [congruence | reflexivity].
    + exists []. auto.
Qed.

Lemma drop_hex_app (h u : text) :
  forallb is_hex h = true -> drop_hex (h ++ u) = drop_hex u.
Proof.
  induction h as [|c h IH]; simpl; auto.
  intros H. apply andb_true_iff in H as [Hc Hh]. rewrite Hc. auto.
Qed.

Lemma match_encoding_Some (s r : text) :
  match_encoding s = Some r <-> exists tok, is_encoding tok /\ s = tok ++ r.
Proof.
  split.
  - destruct s as [|a [|b [|h t]]]; simpl; try discriminate.
    destruct (Ascii.eqb_spec a "#") as [->|]; simpl; try discriminate.
    destruct (Ascii.eqb_spec b "x") as [->|]; simpl; try discriminate.
    destruct (is_hex h) eqn:Hh; try discriminate.
    destruct (drop_hex_split t) as (hs & E & F).
    destruct (drop_hex t) as [|c u]; try discriminate.
    destruct (Ascii.eqb_spec c ";") as [->|]; try discriminate.
    intros [= <-]. exists (str "#x" ++ (h :: hs) ++ str ";"). split.
    + exists (h :: hs). repeat split; try discriminate.
      simpl. now rewrite Hh, F.
    + rewrite E. simpl. rewrite <- app_assoc. reflexivity.
  - intros (tok & (h & -> & Hne & Hh) & ->).
    destruct h as [|c h]; [congruence|].
    simpl in Hh. apply andb_true_iff in Hh as [Hc Hh].
    simpl. rewrite Hc. rewrite <- app_assoc, drop_hex_app by assumption.
    reflexivity.
Qed.

Lemma has_encoding_iff (s : text) :
  has_encoding s = true <->
  exists pre tok post, s = pre ++ tok ++ post /\ is_encoding tok.
Proof.
  unfold has_encoding. split.
  - destruct (re_search _ s) as [i|] eqn:R; [|discriminate]. intros _.
    destruct (re_search_sound _ _ _ R) as (M & _ & _).
    destruct (match_encoding (skipn i s)) as [r|] eqn:E; [|discriminate].
    apply match_encoding_Some in E as (tok & T & E).
    exists (firstn i s), tok, r. split; auto.
    rewrite <- E. symmetry. apply firstn_skipn.
  - intros (pre & tok & post & -> & T).
    destruct (re_search_finds
                (fun u => match match_encoding u with Some _ => true | None => false end)
                pre (tok ++ post)) as (i & -> & _); auto.
    assert (E : match_encoding (tok ++ post) = Some post)
      by (apply match_encoding_Some; eauto).
    now rewrite E.
Qed.

Lemma remove_special_encoding_clean (s : text) :
  has_encoding s = false -> remove_special_encoding s = s.
Proof.
  unfold has_encoding. induction s as [|c s IH]; cbn [re_search]; intros H;
    rewrite remove_special_encoding_step.
  - reflexivity.
  - destruct (match_encoding (c :: s)); [discriminate|].
    f_equal. apply IH.
    destruct (re_search _ s); [discriminate | reflexivity].
Qed.

(** C1, as stated, fails: a token removed from inside [#x#x3a;3a;] leaves
    [#x3a;], which the second application removes. *)
Lemma remove_special_encoding_not_idempotent :
  remove_special_encoding (remove_special_encoding (str "#x#x3a;3a;"))
  <> remove_special_encoding (str "#x#x3a;3a;").
Proof. vm_compute. discriminate. Qed.

(** C1 (amended): the strings in which the pattern [#x], hex digits, [;]
    occurs are exactly those with [has_encoding s = true]; a string without
    an occurrence is returned unchanged; and a second application changes
    nothing whenever the first result has no occurrence left. *)
Theorem remove_special_encoding_fixed (s : text) :
  (has_encoding s = true <->
   exists pre h post,
     s = pre ++ (str "#x" ++ h ++ str ";") ++ post
     /\ h <> [] /\ forallb is_hex h = true)
  /\ (has_encoding s = false -> remove_special_encoding s = s)
  /\ (has_encoding (remove_special_encoding s) = false ->
      remove_special_encoding (remove_special_encoding s)
      = remove_special_encoding s).
Proof.
  split; [|split].
  - rewrite has_encoding_iff. split.
    + intros (pre & tok & post & E & h & -> & Hne & Hh). eauto 8.
    + intros (pre & h & post & E & Hne & Hh).
      exists pre, (str "#x" ++ h ++ str ";"), post. split; auto.
      exists h. auto.
  - apply remove_special_encoding_clean.
  - apply remove_special_encoding_clean.
Qed.

Lemma remove_special_encoding_fixed_witness :
  has_encoding (str "Some-Article-Title") = false
  /\ remove_special_encoding (str "Some-Article-Title") = str "Some-Article-Title"
  /\ has_encoding (remove_special_encoding (str "test#x3a;#x2f;file")) = false
  /\ remove_special_encoding (remove_special_encoding (str "test#x3a;#x2f;file"))
     = remove_special_encoding (str "test#x3a;#x2f;file").
Proof.
  split; [reflexivity|]. split.
  - apply (remove_special_encoding_fixed (str "Some-Article-Title")). reflexivity.
  - split; [vm_compute; reflexivity|].
    apply (remove_special_encoding_fixed (str "test#x3a;#x2f;file")).
    vm_compute. reflexivity.
Defined.

(** ** PDFNameAnalyzer: DOI-format names *)

Lemma startswith_lower (s p : text) :
  startswith s p = true -> startswith (lower s) (lower p) = true.
Proof.
  rewrite !startswith_iff. intros [rest ->].
  exists (lower rest). unfold lower. apply map_app.
Qed.

Lemma is_doi_format_of_prefix (name prefix : text) :
  In prefix DOI_PREFIXES -> startswith (lower name) prefix = true ->
  _is_doi_format name = true.
Proof.
  intros Hin Hs. unfold _is_doi_format. apply existsb_exists. eauto.
Qed.

(** Names whose cleaned form starts with a prefix exactly as the table
    spells it (lower case): the short and the legacy prefix are expanded
    with [10.1111/], the generic one is taken as it is. *)
Lemma analyze_exact_prefix (pdf_name : text) :
  let cleaned := remove_special_encoding pdf_name in
  (startswith cleaned (str "isj.") = true
   \/ startswith cleaned (str "j.1365-2575") = true ->
   analyze pdf_name
   = (normalize cleaned true, normalize (str "10.1111/" ++ cleaned) false, true))
  /\ (startswith cleaned (str "10.") = true ->
      analyze pdf_name = (normalize cleaned true, normalize cleaned false, true)).
Proof.
  intros cleaned. unfold analyze. fold cleaned. split.
  - intros H.
    assert (D : _is_doi_format cleaned = true).
    { destruct H as [H|H]; apply startswith_lower in H.
      - apply (is_doi_format_of_prefix _ (str "isj.")); simpl; auto.
      - apply (is_doi_format_of_prefix _ (str "j.1365-2575")); simpl; auto. }
    rewrite D. unfold _build_full_doi.
    destruct H as [H|H]; rewrite H; [reflexivity|].
    destruct (startswith cleaned (str "isj.")); reflexivity.
  - intros H.
    assert (D : _is_doi_format cleaned = true).
    { apply startswith_lower in H.
      apply (is_doi_format_of_prefix _ (str "10.")); simpl; auto. }
    rewrite D. unfold _build_full_doi.
    apply startswith_iff in H as [rest ->]. reflexivity.
Qed.

(** C2: the detection lower-cases the name, the expansion does not.  For
    the base name [ISJ.12345] the name is classified as DOI-format, yet the
    DOI key is the normalization of the bare name and not of the name
    prefixed with [10.1111/]. *)
Theorem analyze_upper_case_prefix :
  let name := str "ISJ.12345" in
  remove_special_encoding name = name
  /\ startswith (lower name) (str "isj.") = true
  /\ analyze name = (str "isj", str "isj12345", true)
  /\ normalize (str "10.1111/" ++ name) false = str "101111isj12345"
  /\ analyze (str "isj.12345") = (str "isj", str "101111isj12345", true).
Proof. vm_compute. repeat split. Qed.

(** ** PDFNameAnalyzer: names with a year *)

Lemma drop_hex_underscore (r u : text) :
  drop_hex (r ++ str "_" ++ u) = drop_hex r ++ str "_" ++ u.
Proof.
  induction r as [|c r IH]; simpl; [reflexivity|].
  destruct (is_hex c); [exact IH | reflexivity].
Qed.

Lemma match_encoding_underscore (s u : text) :
  match_encoding (s ++ str "_" ++ u)
  = option_map (fun r => r ++ str "_" ++ u) (match_encoding s).
Proof.
  destruct s as [|a [|b [|h r]]].
  - destruct u as [|b [|h u]]; reflexivity.
  - destruct u as [|h u]; [reflexivity|]. simpl.
    destruct (Ascii.eqb a "#"); reflexivity.
  - simpl. destruct (Ascii.eqb a "#"), (Ascii.eqb b "x"); reflexivity.
  - change ((a :: b :: h :: r) ++ str "_" ++ u)
      with (a :: b :: h :: (r ++ str "_" ++ u)).
    unfold match_encoding. rewrite drop_hex_underscore.
    destruct (Ascii.eqb a "#" && Ascii.eqb b "x" && is_hex h); [|reflexivity].
    destruct (drop_hex r) as [|c t]; [reflexivity|]. simpl.
    destruct (Ascii.eqb c ";"); reflexivity.
Qed.

(** An underscore is never part of a match, so cleaning works on the two
    sides of it separately. *)
Lemma remove_special_encoding_underscore (s u : text) :
  remove_special_encoding (s ++ str "_" ++ u)
  = remove_special_encoding s ++ str "_" ++ remove_special_encoding u.
Proof.
  funelim (remove_special_encoding s).
  - rewrite (remove_special_encoding_step (s ++ _)), match_encoding_underscore, e.
    simpl. apply H.
  - rewrite remove_special_encoding_step.
    rewrite (match_encoding_underscore [] u). reflexivity.
  - rewrite (remove_special_encoding_step ((c :: t) ++ _)),
      match_encoding_underscore, e.
    simpl. f_equal. apply H.
Qed.

Lemma is_digit_not_hash (c : ascii) : is_digit c = true -> Ascii.eqb c "#" = false.
Proof. destruct c as [[] [] [] [] [] [] [] []]; vm_compute; congruence. Qed.

Lemma remove_special_encoding_digits (y : text) :
  forallb is_digit y = true -> remove_special_encoding y = y.
Proof.
  induction y as [|d y IH]; simpl; intros H;
    rewrite remove_special_encoding_step; [reflexivity|].
  apply andb_true_iff in H as [Hd Hy].
  assert (E : match_encoding (d :: y) = None).
  { destruct y as [|b [|h r]]; try reflexivity.
    simpl. now rewrite (is_digit_not_hash d Hd). }
  rewrite E. f_equal. auto.
Qed.

Lemma year_mid_at_iff (s : text) :
  year_mid_at s = true <->
  exists y post,
    s = str "_" ++ y ++ str "_" ++ post
    /\ length y = 4 /\ forallb is_digit y = true.
Proof.
  split.
  - destruct s as [|u [|d1 [|d2 [|d3 [|d4 [|v post]]]]]]; try discriminate.
    simpl. rewrite !andb_true_iff.
    intros [[[[[U D1] D2] D3] D4] V].
    apply Ascii.eqb_eq in U, V. subst.
    exists [d1; d2; d3; d4], post. simpl.
    rewrite D1, D2, D3, D4. auto.
  - intros (y & post & -> & L & D).
    destruct y as [|d1 [|d2 [|d3 [|d4 [|]]]]]; try discriminate.
    simpl in D. rewrite !andb_true_iff in D.
    destruct D as (D1 & D2 & D3 & D4 & _).
    simpl. now rewrite D1, D2, D3, D4.
Qed.

Lemma extract_title_part_year (pre y post : text) :
  length y = 4 -> forallb is_digit y = true ->
  let name := pre ++ str "_" ++ y ++ str "_" ++ post in
  exists rest,
    pre = _extract_title_part name ++ rest
    /\ ((forall pre' y' post',
           name = pre' ++ str "_" ++ y' ++ str "_" ++ post' ->
           length y' = 4 -> forallb is_digit y' = true ->
           length pre <= length pre') ->
        rest = []).
Proof.
  intros L D name.
  destruct (re_search_finds year_mid_at pre (str "_" ++ y ++ str "_" ++ post))
    as (i & R & Hi).
  { apply year_mid_at_iff. eauto. }
  unfold _extract_title_part. fold name in R. rewrite R.
  unfold name. rewrite firstn_app.
  replace (i - length pre) with 0 by lia. rewrite firstn_O, app_nil_r.
  exists (skipn i pre). split.
  - symmetry. apply firstn_skipn.
  - intros Least.
    destruct (re_search_sound _ _ _ R) as (M & _ & _).
    apply year_mid_at_iff in M as (y' & post' & E & L' & D').
    assert (G : length pre <= length (firstn i name)).
    { apply (Least _ y' post'); auto.
      rewrite <- E. symmetry. apply firstn_skipn. }
    rewrite length_firstn in G.
    apply length_zero_iff_nil. rewrite length_skipn. lia.
Qed.

(** C7, as stated, fails: the search takes the first year token of the
    cleaned name.  The base name [X_#x3a;2020_Y_2021_Z] holds one year
    token, [_2021_] at offset 13; cleaning turns [_#x3a;2020_] into a
    second one in front of it, and the title part is [X], not the cleaned
    text [X_2020_Y] that precedes the token of the base name. *)
Lemma analyze_year_token_not_all_before :
  str "X_#x3a;2020_Y_2021_Z"
  = str "X_#x3a;2020_Y" ++ str "_" ++ str "2021" ++ str "_" ++ str "Z"
  /\ filter (fun i => year_mid_at (skipn i (str "X_#x3a;2020_Y_2021_Z")))
            (seq 0 (length (str "X_#x3a;2020_Y_2021_Z")))
     = [13]
  /\ _is_doi_format (remove_special_encoding (str "X_#x3a;2020_Y_2021_Z")) = false
  /\ remove_special_encoding (str "X_#x3a;2020_Y") = str "X_2020_Y"
  /\ _extract_title_part (remove_special_encoding (str "X_#x3a;2020_Y_2021_Z"))
     = str "X"
  /\ _extract_title_part (remove_special_encoding (str "X_#x3a;2020_Y_2021_Z"))
     <> remove_special_encoding (str "X_#x3a;2020_Y")
  /\ _extract_title_part (remove_special_encoding (str "X_#x3a;2020_Y_2021_Z"))
     <> str "X_#x3a;2020_Y"
  /\ fst (fst (analyze (str "X_#x3a;2020_Y_2021_Z")))
     <> normalize (remove_special_encoding (str "X_#x3a;2020_Y")) true.
Proof. vm_compute. repeat split; discriminate. Qed.

(** C7 (amended): a base name that contains an underscore, four digits and an
    underscore, and is not DOI-format.  The token survives the cleaning;
    the title part is an initial piece of the cleaned text in front of the
    token, hence without the year and what follows it, and it is all of
    that text when the token is the first of its kind in the cleaned name;
    the title key is the normalization of the title part.  The two names of
    the example get the same title key. *)
Theorem analyze_year_token :
  (forall pdf_name pre y post,
      pdf_name = pre ++ str "_" ++ y ++ str "_" ++ post ->
      length y = 4 -> forallb is_digit y = true ->
      _is_doi_format (remove_special_encoding pdf_name) = false ->
      let cleaned := remove_special_encoding pdf_name in
      let before := remove_special_encoding pre in
      cleaned = before ++ str "_" ++ y ++ str "_" ++ remove_special_encoding post
      /\ analyze pdf_name
         = (normalize (_extract_title_part cleaned) true,
            normalize cleaned false, false)
      /\ exists rest,
          before = _extract_title_part cleaned ++ rest
          /\ ((forall pre' y' post',
                 cleaned = pre' ++ str "_" ++ y' ++ str "_" ++ post' ->
                 length y' = 4 -> forallb is_digit y' = true ->
                 length before <= length pre') ->
              _extract_title_part cleaned = before))
  /\ fst (fst (analyze (str "A-title_2024_Journal")))
     = fst (fst (analyze (str "A-title")))
  /\ _extract_title_part (str "A-title_2024_Journal") = str "A-title".
Proof.
  split; [|vm_compute; auto].
  intros pdf_name pre y post -> L D F cleaned before.
  assert (C : cleaned
              = before ++ str "_" ++ y ++ str "_" ++ remove_special_encoding post).
  { unfold cleaned, before.
    rewrite !remove_special_encoding_underscore.
    now rewrite (remove_special_encoding_digits y D). }
  split; [exact C|]. split.
  - unfold analyze. fold cleaned in F |- *. now rewrite F.
  - destruct (extract_title_part_year before y (remove_special_encoding post) L D)
      as (rest & E & Least).
    rewrite <- C in E, Least.
    exists rest. split; [exact E|].
    intros H. specialize (Least H). subst rest.
    now rewrite app_nil_r in E.
Qed.

Lemma analyze_year_token_witness :
  analyze (str "Title#x3f;With_2024_DSS")
  = (str "titlewith", str "titlewith2024dss", false).
Proof.
  destruct analyze_year_token as [H _].
  destruct (H (str "Title#x3f;With_2024_DSS") (str "Title#x3f;With")
              (str "2024") (str "DSS") eq_refl eq_refl eq_refl eq_refl)
    as (_ & A & _).
  exact A.
Defined.

(** ** Index construction *)

Lemma index_append_has (idx : index) (key k : text) (entry e : text * path) :
  index_has (index_append idx key entry) k e
  <-> index_has idx k e \/ (k = key /\ e = entry).
Proof.
  unfold index_has. induction idx as [|[k0 l0] idx IH]; simpl.
  - split.
    + intros (l & [[= <- <-]|[]] & [<-|[]]). auto.
    + intros [(l & [] & _)|[-> ->]]. exists [entry]. simpl. auto.
  - destruct (text_eqb_spec k0 key) as [->|Hne]; simpl.
    + split.
      * intros (l & [[= <- <-]|Hin] & He).
        -- apply in_app_or in He as [He|[<-|[]]]; eauto.
        -- eauto.
      * intros [(l & [[= <- <-]|Hin] & He)|[-> ->]].
        -- exists (l0 ++ [entry]). split; auto. apply in_or_app; auto.
        -- eauto.
        -- exists (l0 ++ [entry]). split; auto. apply in_or_app; simpl; auto.
    + split.
      * intros (l & [[= <- <-]|Hin] & He); [eauto|].
        destruct (proj1 IH) as [(l' & A & B)|C]; eauto.
      * intros [(l & [[= <- <-]|Hin] & He)|C]; [eauto| |].
        -- destruct (proj2 IH) as (l' & A & B); eauto.
        -- destruct (proj2 IH) as (l' & A & B); eauto.
Qed.

(** What a scanned name puts into the title index, and into the DOI index. *)
Definition title_contribution (pdf_name key : text) : Prop :=
  let '(norm_title, _, is_doi) := analyze pdf_name in
  key = norm_title /\ norm_title <> [] /\ is_doi = false /\ 10 <= length norm_title.

Definition doi_contribution (pdf_name key : text) : Prop :=
  let '(_, norm_doi, _) := analyze pdf_name in
  key = norm_doi /\ norm_doi <> [].

Lemma index_step_has (ti di : index) (item : text * path) :
  forall k e,
    (index_has (fst (index_step (ti, di) item)) k e
     <-> index_has ti k e \/ (e = item /\ title_contribution (fst item) k))
    /\ (index_has (snd (index_step (ti, di) item)) k e
        <-> index_has di k e \/ (e = item /\ doi_contribution (fst item) k)).
Proof.
  intros k e. destruct item as [pdf_name pdf_path].
  unfold index_step, title_contribution, doi_contribution. cbn [fst snd].
  destruct (analyze pdf_name) as [[norm_title norm_doi] is_doi].
  cbn [fst snd]. split.
  - destruct (truthy norm_title) eqn:T; cbn [andb].
    2:{ apply truthy_false in T. intuition congruence. }
    apply truthy_true in T.
    destruct is_doi; cbn [andb negb]; [intuition congruence|].
    destruct (Nat.leb_spec 10 (length norm_title)).
    + rewrite index_append_has. intuition.
    + intuition lia.
  - destruct (truthy norm_doi) eqn:T.
    + apply truthy_true in T. rewrite index_append_has. intuition.
    + apply truthy_false in T. intuition congruence.
Qed.

Lemma fold_index_step_has (pdf_files : list (text * path)) :
  forall ti di k e,
    (index_has (fst (fold_left index_step pdf_files (ti, di))) k e
     <-> index_has ti k e
         \/ (In e pdf_files /\ title_contribution (fst e) k))
    /\ (index_has (snd (fold_left index_step pdf_files (ti, di))) k e
        <-> index_has di k e
            \/ (In e pdf_files /\ doi_contribution (fst e) k)).
Proof.
  induction pdf_files as [|item rest IH]; intros ti di k e;
    cbn [fold_left In fst snd].
  - intuition.
  - destruct (index_step (ti, di) item) as [ti' di'] eqn:S.
    destruct (IH ti' di' k e) as [A B].
    destruct (index_step_has ti di item k e) as [A' B'].
    rewrite S in A', B'. simpl in A', B'.
    rewrite A, B, A', B'. split; split; intros H.
    + destruct H as [[H|[-> H]]|[H1 H2]]; auto.
    + destruct H as [H|[[<-|H1] H2]]; auto.
    + destruct H as [[H|[-> H]]|[H1 H2]]; auto.
    + destruct H as [H|[[<-|H1] H2]]; auto.
Qed.

(** C5: a scanned name is listed in the title index, under a key, exactly
    when the key is its title key, the key is not empty, the name is not
    DOI-format and the key has at least 10 characters; it is listed in the
    DOI index exactly under its DOI key, whenever that key is not empty. *)
Theorem build_indexes_contributions (pdf_files : list (text * path))
  (pdf_name : text) (pdf_path : path) (key : text) :
  let title_index := fst (build_indexes pdf_files) in
  let doi_index := snd (build_indexes pdf_files) in
  let norm_title := fst (fst (analyze pdf_name)) in
  let norm_doi := snd (fst (analyze pdf_name)) in
  let is_doi := snd (analyze pdf_name) in
  (index_has title_index key (pdf_name, pdf_path)
   <-> In (pdf_name, pdf_path) pdf_files
       /\ key = norm_title /\ norm_title <> [] /\ is_doi = false
       /\ 10 <= length norm_title)
  /\ (index_has doi_index key (pdf_name, pdf_path)
      <-> In (pdf_name, pdf_path) pdf_files
          /\ key = norm_doi /\ norm_doi <> []).
Proof.
  cbv zeta. unfold build_indexes.
  destruct (fold_index_step_has pdf_files [] [] key (pdf_name, pdf_path))
    as [A B].
  unfold title_contribution, doi_contribution in A, B. cbn [fst snd] in A, B.
  rewrite A, B. clear A B.
  destruct (analyze pdf_name) as [[t d] b]. cbn [fst snd].
  unfold index_has. cbn [In].
  split; split; intros H.
  - destruct H as [(l & [] & _)|H]; exact H.
  - right; exact H.
  - destruct H as [(l & [] & _)|H]; exact H.
  - right; exact H.
Qed.

(** ** PDFMatcher._match_single_record: the two phases *)

Lemma collect_locations (test : text -> bool) (idx : index) (acc : list path) :
  collect test idx acc = acc ++ locations_of test idx.
Proof.
  unfold collect, locations_of.
  revert acc; induction idx as [|[k l] idx IH]; intros acc; simpl.
  - now rewrite app_nil_r.
  - destruct (test k); simpl; rewrite IH; [|reflexivity].
    now rewrite app_assoc.
Qed.

Lemma locations_of_In (test : text -> bool) (idx : index) (p : path) :
  In p (locations_of test idx)
  <-> exists k l n, In (k, l) idx /\ In (n, p) l /\ test k = true.
Proof.
  unfold locations_of. rewrite in_flat_map. split.
  - intros ([k l] & Hin & Hp). apply filter_In in Hin as [Hin Ht].
    apply in_map_iff in Hp as ([n q] & E & Hl). simpl in *. subst q.
    eauto 8.
  - intros (k & l & n & Hin & Hl & Ht). exists (k, l). split.
    + apply filter_In. auto.
    + apply in_map_iff. exists (n, p). auto.
Qed.

Lemma locations_of_none (test : text -> bool) (idx : index) :
  (forall k, test k = false) -> locations_of test idx = [].
Proof.
  intros H. unfold locations_of.
  induction idx as [|[k l] idx IH]; simpl; [reflexivity|].
  now rewrite H.
Qed.

Lemma doi_entry_matches_iff (norm_doi key : text) :
  doi_entry_matches norm_doi key = true
  <-> 5 <= length key
      /\ (key = norm_doi \/ exists pre post, norm_doi = pre ++ key ++ post).
Proof.
  unfold doi_entry_matches.
  rewrite !andb_true_iff, orb_true_iff, Nat.leb_le, text_eqb_eq, contains_iff,
    truthy_true.
  split.
  - intros [[_ L] [E|C]]; auto.
  - intros [L H]. repeat split; auto.
    + intros ->. simpl in L. lia.
    + destruct H as [E|C]; auto.
Qed.

Lemma doi_entry_matches_longer (norm_doi key : text) :
  length norm_doi < length key -> doi_entry_matches norm_doi key = false.
Proof.
  intros L. destruct (doi_entry_matches norm_doi key) eqn:E; [|reflexivity].
  apply doi_entry_matches_iff in E as [_ [->|(pre & post & ->)]].
  - lia.
  - rewrite !length_app in L. lia.
Qed.

(** C3: the DOI phase.  With a normalized DOI of at least 5 characters the
    phase gathers, in index order, the locations of exactly the entries
    whose key has at least 5 characters and equals the normalized DOI or
    occurs inside it; a key that strictly contains the normalized DOI never
    qualifies.  With fewer than 5 characters nothing is gathered. *)
Theorem doi_phase_locations (self : PDFMatcher) (r : LitRecord) (doi_index : index) :
  let norm_doi := normalize (get r (doi_column self) []) false in
  (5 <= length norm_doi ->
   doi_phase self r doi_index
   = locations_of (doi_entry_matches norm_doi) doi_index
   /\ (forall p,
         In p (doi_phase self r doi_index)
         <-> exists key l n,
             In (key, l) doi_index /\ In (n, p) l
             /\ 5 <= length key
             /\ (key = norm_doi
                 \/ exists pre post, norm_doi = pre ++ key ++ post))
   /\ (forall key pre post,
         key = pre ++ norm_doi ++ post -> key <> norm_doi ->
         doi_entry_matches norm_doi key = false))
  /\ (length norm_doi < 5 -> doi_phase self r doi_index = []).
Proof.
  intros norm_doi. unfold doi_phase. fold norm_doi. split.
  - intros L.
    assert (T : truthy (get r (doi_column self) []) = true).
    { apply truthy_true. intros E. unfold norm_doi in L. rewrite E in L.
      simpl in L. lia. }
    rewrite T. apply Nat.leb_le in L. rewrite L.
    rewrite collect_locations. simpl. split; [reflexivity|]. split.
    + intros p. rewrite locations_of_In.
      split; intros (k & l & n & A & B & C); exists k, l, n.
      * apply doi_entry_matches_iff in C. tauto.
      * repeat split; try tauto. apply doi_entry_matches_iff. tauto.
    + intros key pre post -> Hne. apply doi_entry_matches_longer.
      rewrite !length_app.
      destruct pre, post; simpl; try lia.
      exfalso. apply Hne. simpl. now rewrite app_nil_r.
  - intros L. destruct (truthy _); [|reflexivity].
    apply Nat.leb_gt in L. now rewrite L.
Qed.

Lemma doi_phase_locations_witness :
  doi_phase test_matcher test_record_2 test_doi_index
  = [str "/pdfs/isj.12345.pdf"]
  /\ doi_phase test_matcher short_doi_record test_doi_index = [].
Proof.
  split.
  - destruct (doi_phase_locations test_matcher test_record_2 test_doi_index)
      as [H _].
    destruct H as (E & _); [vm_compute; lia|].
    rewrite E. vm_compute. reflexivity.
  - destruct (doi_phase_locations test_matcher short_doi_record test_doi_index)
      as [_ H].
    apply H. vm_compute. lia.
Defined.

Lemma match_single_record_locations (self : PDFMatcher) (idx : nat)
  (r : LitRecord) (title_index doi_index : index) :
  matched_pdfs (_match_single_record self idx r title_index doi_index)
  = fromkeys (title_phase self r title_index (doi_phase self r doi_index)).
Proof.
  unfold _match_single_record.
  destruct (fromkeys _) as [|a [|b l]]; reflexivity.
Qed.

(** C4: the title phase.  When the DOI phase has gathered something, the
    title index is not consulted and the list is left as it is; when it has
    gathered nothing, the phase gathers, in index order, the locations of
    exactly the entries whose key is not empty and begins the normalized
    title.  The locations that [_match_single_record] classifies are those
    left by the two phases, without repetitions. *)
Theorem title_phase_locations (self : PDFMatcher) (r : LitRecord)
  (title_index doi_index : index) :
  let found := doi_phase self r doi_index in
  let norm_title := normalize (get r (title_column self) []) true in
  (found <> [] -> title_phase self r title_index found = found)
  /\ (found = [] ->
      title_phase self r title_index found
      = locations_of (title_entry_matches norm_title) title_index
      /\ forall p,
          In p (title_phase self r title_index found)
          <-> exists key l n,
              In (key, l) title_index /\ In (n, p) l
              /\ key <> [] /\ exists rest, norm_title = key ++ rest)
  /\ (forall idx,
        matched_pdfs (_match_single_record self idx r title_index doi_index)
        = fromkeys (title_phase self r title_index found)).
Proof.
  intros found norm_title. split; [|split].
  - intros H. unfold title_phase. apply truthy_true in H. now rewrite H.
  - intros ->.
    assert (E : title_phase self r title_index []
                = locations_of (title_entry_matches norm_title) title_index).
    { unfold title_phase. fold norm_title. simpl.
      destruct (truthy (get r (title_column self) [])) eqn:T.
      - now rewrite collect_locations.
      - symmetry. apply locations_of_none. intros k.
        apply truthy_false in T. unfold norm_title. rewrite T. simpl.
        unfold title_entry_matches. destruct k; reflexivity. }
    split; [exact E|]. intros p. rewrite E, locations_of_In.
    split; intros (k & l & n & A & B & C); exists k, l, n.
    + unfold title_entry_matches in C. apply andb_true_iff in C as [C1 C2].
      apply truthy_true in C1. apply startswith_iff in C2. tauto.
    + repeat split; try tauto. unfold title_entry_matches.
      apply andb_true_iff. rewrite truthy_true, startswith_iff. tauto.
  - intros idx. apply match_single_record_locations.
Qed.

Lemma title_phase_locations_witness :
  title_phase test_matcher test_record_1 test_title_index
    (doi_phase test_matcher test_record_1 test_doi_index)
  = [str "/pdfs/A-computer-vision-based_2024_DSS.pdf"]
  /\ title_phase test_matcher test_record_2 test_title_index
       (doi_phase test_matcher test_record_2 test_doi_index)
     = doi_phase test_matcher test_record_2 test_doi_index.
Proof.
  split.
  - destruct (title_phase_locations test_matcher test_record_1
                test_title_index test_doi_index) as (_ & H & _).
    destruct H as (E & _); [vm_compute; reflexivity|].
    rewrite E. vm_compute. reflexivity.
  - destruct (title_phase_locations test_matcher test_record_2
                test_title_index test_doi_index) as (H & _).
    apply H. vm_compute. discriminate.
Defined.

(** ** Outcomes *)

Lemma fromkeys_In (l : list path) (x : path) : In x (fromkeys l) <-> In x l.
Proof.
  induction l as [|p l IH]; simpl; [tauto|].
  rewrite filter_In, IH, negb_true_iff, text_eqb_neq.
  destruct (text_eqb_spec p x) as [->|N]; intuition congruence.
Qed.

Lemma fromkeys_NoDup (l : list path) : NoDup (fromkeys l).
Proof.
  induction l as [|p l IH]; simpl; constructor.
  - rewrite filter_In, negb_true_iff, text_eqb_neq. tauto.
  - now apply NoDup_filter.
Qed.

Lemma enumerate_map_In {A B : Type} (f : nat -> A -> B) (l : list A) :
  forall start y,
    In y (enumerate_map f start l) -> exists i x, In x l /\ y = f i x.
Proof.
  induction l as [|x l IH]; simpl; intros start y; [tauto|].
  intros [<-|H]; eauto.
  destruct (IH _ _ H) as (i & x' & Hin & ->). eauto.
Qed.

Lemma enumerate_map_length {A B : Type} (f : nat -> A -> B) (l : list A) :
  forall start, length (enumerate_map f start l) = length l.
Proof. induction l; simpl; auto. Qed.

Lemma match_single_record_invariant (self : PDFMatcher) (idx : nat)
  (r : LitRecord) (title_index doi_index : index) :
  outcome_invariant (_match_single_record self idx r title_index doi_index).
Proof.
  unfold _match_single_record, outcome_invariant.
  pose proof (fromkeys_NoDup
                (title_phase self r title_index (doi_phase self r doi_index)))
    as N.
  destruct (fromkeys _) as [|a [|b l]];
    cbn [matched_pdfs status reason length].
  - split; [tauto|]. split; [split; discriminate|].
    split; [split; [lia | discriminate]|].
    split; [intros _; discriminate | constructor].
  - split; [split; discriminate|]. split; [tauto|].
    split; [split; [lia | discriminate]|].
    split; [intros [H|H]; discriminate H | exact N].
  - split; [split; discriminate|]. split; [split; discriminate|].
    split; [split; [reflexivity | lia]|].
    split; [intros _; discriminate | exact N].
Qed.

(** ** PDFMatcher.match_all *)

Lemma match_all_results (self : PDFMatcher) (pdfs_dir : Directory)
  (data_result : DataSourceResult) (interactive recursive_scan : bool) :
  let pdf_files := scan_directory pdfs_dir recursive_scan in
  results (match_all self pdfs_dir data_result interactive recursive_scan)
  = match pdf_files with
    | [] => enumerate_map no_files_outcome 0 (records data_result)
    | _ =>
        enumerate_map
          (fun idx r =>
             _match_single_record self idx r
               (fst (build_indexes pdf_files)) (snd (build_indexes pdf_files)))
          0 (records data_result)
    end.
Proof.
  intros pdf_files. unfold match_all. fold pdf_files.
  destruct pdf_files as [|f fs]; [reflexivity|].
  destruct (build_indexes (f :: fs)) as [ti di]. reflexivity.
Qed.

Lemma match_all_totals (self : PDFMatcher) (pdfs_dir : Directory)
  (data_result : DataSourceResult) (interactive recursive_scan : bool) :
  let b := match_all self pdfs_dir data_result interactive recursive_scan in
  total_records b = length (records data_result)
  /\ total_pdfs b = length (scan_directory pdfs_dir recursive_scan)
  /\ length (results b) = length (records data_result).
Proof.
  intros b. subst b.
  rewrite match_all_results. unfold match_all.
  destruct (scan_directory pdfs_dir recursive_scan) as [|f fs].
  - simpl. now rewrite enumerate_map_length.
  - destruct (build_indexes (f :: fs)) as [ti di]. simpl.
    now rewrite enumerate_map_length.
Qed.

(** C6: every outcome has the shape of [outcome_invariant]: no locations
    exactly for [UNMATCHED], one exactly for [MATCHED], two or more exactly
    for [MULTI_MATCHED], no location twice, and a reason that is not empty
    for [UNMATCHED] and [MULTI_MATCHED].  This holds for what
    [_match_single_record] returns, where the locations are those gathered
    by the two phases with repetitions dropped, and for every outcome in a
    result of [match_all]. *)
Theorem match_outcome_invariant :
  (forall self idx r title_index doi_index,
      let o := _match_single_record self idx r title_index doi_index in
      outcome_invariant o
      /\ matched_pdfs o
         = fromkeys (title_phase self r title_index (doi_phase self r doi_index)))
  /\ (forall self pdfs_dir data_result interactive recursive_scan o,
         In o (results (match_all self pdfs_dir data_result interactive
                          recursive_scan)) ->
         outcome_invariant o).
Proof.
  split.
  - intros self idx r ti di o. split.
    + apply match_single_record_invariant.
    + apply match_single_record_locations.
  - intros self pdfs_dir data_result interactive recursive_scan o.
    rewrite match_all_results.
    destruct (scan_directory pdfs_dir recursive_scan) as [|f fs]; intros H;
      apply enumerate_map_In in H as (i & r & _ & ->).
    + unfold outcome_invariant, no_files_outcome. simpl.
      split; [tauto|]. split; [split; discriminate|].
      split; [split; [lia | discriminate]|].
      split; [intros _; discriminate | constructor].
    + apply match_single_record_invariant.
Qed.

Lemma match_outcome_invariant_witness :
  outcome_invariant
    {| record_index := 2;
       record := test_record_3;
       status := UNMATCHED;
       matched_pdfs := [];
       reason := str "未找到匹配的 PDF 文件" |}.
Proof.
  destruct match_outcome_invariant as [_ H].
  apply (H test_matcher test_pdf_dir test_data_result false false).
  vm_compute. right. right. left. reflexivity.
Defined.

(** C8: a missing directory scans to the empty mapping; and whenever the
    scan gives no file, [match_all] returns a result in which the records
    appear in their order, each [UNMATCHED] with no location and the
    no-files reason.  The indexes play no part: the result does not depend
    on the matcher's column names. *)
Theorem match_all_no_files :
  (forall recursive, scan_directory Missing recursive = [])
  /\ (forall self pdfs_dir data_result interactive recursive_scan,
         scan_directory pdfs_dir recursive_scan = [] ->
         let b := match_all self pdfs_dir data_result interactive recursive_scan in
         results b = enumerate_map no_files_outcome 0 (records data_result)
         /\ map record (results b) = records data_result
         /\ map record_index (results b) = seq 0 (length (records data_result))
         /\ total_records b = length (records data_result)
         /\ total_pdfs b = 0
         /\ unmatched_count b = total_records b
         /\ (forall o, In o (results b) ->
                       status o = UNMATCHED /\ matched_pdfs o = []
                       /\ reason o = str "目录中没有 PDF 文件" /\ reason o <> [])
         /\ (forall self',
                match_all self' pdfs_dir data_result interactive recursive_scan = b)).
Proof.
  split; [reflexivity|].
  intros self pdfs_dir data_result interactive recursive_scan E b.
  assert (R : results b = enumerate_map no_files_outcome 0 (records data_result)).
  { subst b. rewrite match_all_results, E. reflexivity. }
  assert (G : forall start l,
             map record (enumerate_map no_files_outcome start l) = l
             /\ map record_index (enumerate_map no_files_outcome start l)
                = seq start (length l)
             /\ length (filter (fun r => status_eqb (status r) UNMATCHED)
                          (enumerate_map no_files_outcome start l))
                = length l).
  { intros start l; revert start.
    induction l as [|x l IH]; intros start; simpl; [auto|].
    destruct (IH (S start)) as (A & B & C). now rewrite A, B, C. }
  destruct (G 0 (records data_result)) as (A & B & C).
  destruct (match_all_totals self pdfs_dir data_result interactive recursive_scan)
    as (T1 & T2 & _). fold b in T1, T2.
  rewrite E in T2.
  split; [exact R|]. rewrite R.
  split; [exact A|]. split; [exact B|]. split; [exact T1|]. split; [exact T2|].
  split; [|split].
  - unfold unmatched_count, unmatched_results. now rewrite R, C, T1.
  - intros o H. apply enumerate_map_In in H as (i & r & _ & ->).
    simpl. repeat split. discriminate.
  - intros self'. subst b. unfold match_all. rewrite E. reflexivity.
Qed.

Lemma match_all_no_files_witness :
  results (match_all test_matcher Missing test_data_result false false)
  = enumerate_map no_files_outcome 0 (records test_data_result).
Proof.
  destruct match_all_no_files as [_ H].
  destruct (H test_matcher Missing test_data_result false false eq_refl)
    as (R & _).
  exact R.
Defined.

(** ** BatchMatchResult *)

Lemma status_partition (l : list MatchResult) :
  length (filter (fun r => status_eqb (status r) MATCHED) l)
  + length (filter (fun r => status_eqb (status r) UNMATCHED) l)
  + length (filter (fun r => status_eqb (status r) MULTI_MATCHED) l)
  = length l.
Proof.
  induction l as [|o l IH]; simpl; [reflexivity|].
  destruct (status o); simpl; lia.
Qed.

(** C9: in every result of [match_all] the three counts add up to the
    number of records of the run. *)
Theorem match_all_counts (self : PDFMatcher) (pdfs_dir : Directory)
  (data_result : DataSourceResult) (interactive recursive_scan : bool) :
  let b := match_all self pdfs_dir data_result interactive recursive_scan in
  matched_count b + unmatched_count b + multi_matched_count b = total_records b
  /\ total_records b = length (records data_result).
Proof.
  intros b.
  destruct (match_all_totals self pdfs_dir data_result interactive recursive_scan)
    as (T1 & _ & T3). fold b in T1, T3.
  split; [|exact T1].
  unfold matched_count, unmatched_count, multi_matched_count, matched_results,
    unmatched_results, multi_matched_results.
  rewrite status_partition. congruence.
Qed.

(** C10: the match rate is 0 when the result counts no record, and
    otherwise the quotient of the matched count by the record count. *)
Theorem match_rate_quotient (b : BatchMatchResult) :
  (total_records b = 0 -> match_rate b = 0%Q)
  /\ (0 < total_records b ->
      (match_rate b
       == inject_Z (Z.of_nat (matched_count b))
          / inject_Z (Z.of_nat (total_records b)))%Q).
Proof.
  unfold match_rate. split.
  - intros ->. reflexivity.
  - intros H. destruct (Nat.eqb_spec (total_records b) 0) as [E|_]; [lia|].
    rewrite Qmake_Qdiv.
    replace (Z.pos (Pos.of_nat (total_records b)))
      with (Z.of_nat (total_records b)); [reflexivity|].
    destruct (total_records b) as [|n]; [lia|].
    cbn [Z.of_nat]. now rewrite Pos.of_nat_succ.
Qed.

Lemma match_rate_quotient_witness :
  (match_rate test_batch == inject_Z 2 / inject_Z 3)%Q
  /\ match_rate empty_batch = 0%Q.
Proof.
  split.
  - destruct (match_rate_quotient test_batch) as [_ H].
    assert (P : 0 < total_records test_batch) by (vm_compute; lia).
    specialize (H P).
    assert (M : matched_count test_batch = 2) by (vm_compute; reflexivity).
    assert (T : total_records test_batch = 3) by (vm_compute; reflexivity).
    rewrite M, T in H. exact H.
  - destruct (match_rate_quotient empty_batch) as [H _].
    apply H. reflexivity.
Defined.

(** ** The checks of [test_modules.py] on the model *)

Example test_normalize_special :
  normalize (str "A-B_C.D") true = str "abcd"
  /\ normalize [] true = [].
Proof. split; reflexivity. Qed.

Example test_remove_special_encoding :
  remove_special_encoding (str "file#x3f;name.pdf") = str "filename.pdf"
  /\ remove_special_encoding (str "test#x3a;#x2f;file") = str "testfile".
Proof. split; vm_compute; reflexivity. Qed.

Example test_pdf_name_analyzer :
  analyze (str "isj.12345") = (str "isj", str "101111isj12345", true)
  /\ snd (analyze (str "10.1016/j.dss.2024.001")) = true
  /\ analyze (str "A-computer-vision-based_2024_DSS")
     = (str "acomputervisionbased", str "acomputervisionbased2024dss", false)
  /\ analyze (str "Some-Article-Title")
     = (str "somearticletitle", str "somearticletitle", false)
  /\ fst (fst (analyze (str "Title#x3f;With_2024_DSS"))) = str "titlewith".
Proof. vm_compute. repeat split. Qed.

Example test_pdf_matcher :
  total_records test_batch = 3
  /\ total_pdfs test_batch = 2
  /\ map status (results test_batch) = [MATCHED; MATCHED; UNMATCHED]
  /\ map matched_pdfs (results test_batch)
     = [[str "/pdfs/A-computer-vision-based_2024_DSS.pdf"];
        [str "/pdfs/isj.12345.pdf"]; []]
  /\ test_title_index
     = [(str "acomputervisionbased",
         [(str "A-computer-vision-based_2024_DSS",
           str "/pdfs/A-computer-vision-based_2024_DSS.pdf")])].
Proof. vm_compute. repeat split. Qed.

(** * Further properties of the code *)

(** ** TextNormalizer.normalize *)

Lemma normalize_filter (t : text) (remove_numbers : bool) :
  normalize t remove_numbers
  = filter (if remove_numbers then is_az else is_az09) (lower t).
Proof. destruct t, remove_numbers; reflexivity. Qed.

Ltac by_cases_on_char c :=
  destruct c as [[] [] [] [] [] [] [] []]; vm_compute; try reflexivity;
  try discriminate; try tauto.

Lemma is_az_code (c : ascii) :
  is_az c = (97 <=? nat_of_ascii c) && (nat_of_ascii c <=? 122).
Proof. by_cases_on_char c. Qed.

Lemma is_digit_code (c : ascii) :
  is_digit c = (48 <=? nat_of_ascii c) && (nat_of_ascii c <=? 57).
Proof. by_cases_on_char c. Qed.

Lemma lower_char_fixes (c : ascii) : is_az09 c = true -> lower_char c = c.
Proof. by_cases_on_char c. Qed.

Lemma lower_char_idempotent (c : ascii) : lower_char (lower_char c) = lower_char c.
Proof. by_cases_on_char c. Qed.

Lemma normalize_Forall (t : text) (remove_numbers : bool) :
  Forall (fun c => (if remove_numbers then is_az else is_az09) c = true)
         (normalize t remove_numbers).
Proof.
  rewrite normalize_filter. apply Forall_forall. intros c H.
  now apply filter_In in H.
Qed.

(** X1: the result of [normalize] consists of lower-case letters [a-z]
    only when numbers are removed, and of [a-z] and [0-9] only otherwise;
    in both cases it is no longer than the input. *)
Theorem normalize_alphabet (t : text) :
  (forall c, In c (normalize t true) -> 97 <= nat_of_ascii c <= 122)
  /\ (forall c, In c (normalize t false) ->
                97 <= nat_of_ascii c <= 122 \/ 48 <= nat_of_ascii c <= 57)
  /\ (forall remove_numbers,
         length (normalize t remove_numbers) <= length t).
Proof.
  split; [|split].
  - intros c H.
    pose proof (proj1 (Forall_forall _ _) (normalize_Forall t true) c H) as A.
    simpl in A. rewrite is_az_code in A.
    apply andb_true_iff in A as [A B].
    apply Nat.leb_le in A, B. lia.
  - intros c H.
    pose proof (proj1 (Forall_forall _ _) (normalize_Forall t false) c H) as A.
    simpl in A. unfold is_az09 in A. rewrite is_az_code, is_digit_code in A.
    apply orb_true_iff in A as [A|A]; apply andb_true_iff in A as [A B];
      apply Nat.leb_le in A, B; lia.
  - intros f. rewrite normalize_filter.
    etransitivity; [apply filter_length_le|].
    unfold lower. now rewrite length_map.
Qed.

Lemma map_lower_fixed (l : text) :
  Forall (fun c => is_az09 c = true) l -> lower l = l.
Proof.
  induction 1 as [|c l Hc _ IH]; simpl; [reflexivity|].
  now rewrite (lower_char_fixes c Hc), IH.
Qed.

Lemma filter_filter_same {A : Type} (p : A -> bool) (l : list A) :
  filter p (filter p l) = filter p l.
Proof.
  induction l as [|x l IH]; simpl; [reflexivity|].
  destruct (p x) eqn:E; simpl; [rewrite E|]; congruence.
Qed.

Lemma filter_az_az09 (l : text) : filter is_az (filter is_az09 l) = filter is_az l.
Proof.
  induction l as [|x l IH]; simpl; [reflexivity|].
  unfold is_az09 at 1. destruct (is_az x) eqn:E; simpl.
  - rewrite E. congruence.
  - destruct (is_digit x); simpl; [rewrite E|]; exact IH.
Qed.

Lemma filter_az09_Forall (l : text) : Forall (fun c => is_az09 c = true) (filter is_az09 l).
Proof. apply Forall_forall. intros c H. now apply filter_In in H. Qed.

Lemma filter_az_Forall (l : text) : Forall (fun c => is_az09 c = true) (filter is_az l).
Proof.
  apply Forall_forall. intros c H. apply filter_In in H as [_ H].
  unfold is_az09. now rewrite H.
Qed.

(** X2: normalizing twice changes nothing, the letters-only key can be
    computed from the letters-and-digits key, and the case of the input
    does not matter. *)
Theorem normalize_idempotent (t : text) (remove_numbers : bool) :
  normalize (normalize t remove_numbers) remove_numbers
  = normalize t remove_numbers
  /\ normalize (normalize t false) true = normalize t true
  /\ normalize (lower t) remove_numbers = normalize t remove_numbers.
Proof.
  split; [|split].
  - rewrite (normalize_filter (normalize _ _)), normalize_filter.
    destruct remove_numbers.
    + rewrite map_lower_fixed by apply filter_az_Forall.
      apply filter_filter_same.
    + rewrite map_lower_fixed by apply filter_az09_Forall.
      apply filter_filter_same.
  - rewrite (normalize_filter (normalize _ _)), !normalize_filter.
    rewrite map_lower_fixed by apply filter_az09_Forall.
    apply filter_az_az09.
  - rewrite !normalize_filter. f_equal. unfold lower. rewrite map_map.
    apply map_ext. apply lower_char_idempotent.
Qed.

Lemma normalize_app (a b : text) (remove_numbers : bool) :
  normalize (a ++ b) remove_numbers
  = normalize a remove_numbers ++ normalize b remove_numbers.
Proof.
  rewrite !normalize_filter. unfold lower. now rewrite map_app, filter_app.
Qed.

(** X3: [normalize] distributes over concatenation; hence a text that
    begins with, or contains, another keeps doing so after both are
    normalized. *)
Theorem normalize_concat (a b : text) (remove_numbers : bool) :
  normalize (a ++ b) remove_numbers
  = normalize a remove_numbers ++ normalize b remove_numbers
  /\ (startswith a b = true ->
      startswith (normalize a remove_numbers) (normalize b remove_numbers) = true)
  /\ (contains b a = true ->
      contains (normalize b remove_numbers) (normalize a remove_numbers) = true).
Proof.
  split; [apply normalize_app|]. split.
  - intros H. apply startswith_iff in H as [rest ->].
    rewrite normalize_app. apply startswith_app.
  - intros H. apply contains_iff in H as (pre & post & ->).
    rewrite !normalize_app. apply contains_iff. eauto.
Qed.

Lemma normalize_alphabet_witness :
  97 <= nat_of_ascii "a" <= 122.
Proof.
  destruct (normalize_alphabet (str "A-B_C.D")) as (H & _).
  apply H. vm_compute. auto.
Defined.

Lemma normalize_concat_witness :
  startswith (normalize (str "A computer vision based concept") true)
             (normalize (str "A computer vision") true) = true
  /\ contains (normalize (str "isj.12345") false)
              (normalize (str "10.1111/isj.12345") false) = true.
Proof.
  split.
  - destruct (normalize_concat (str "A computer vision based concept")
                (str "A computer vision") true) as (_ & H & _).
    apply H. reflexivity.
  - destruct (normalize_concat (str "10.1111/isj.12345") (str "isj.12345") false)
      as (_ & _ & H).
    apply H. reflexivity.
Defined.

(** ** TextNormalizer.remove_special_encoding, continued *)

Lemma is_encoding_length (tok : text) : is_encoding tok -> 4 <= length tok.
Proof.
  intros (h & -> & Hne & _). destruct h; [congruence|].
  simpl. rewrite length_app. simpl. lia.
Qed.

Lemma remove_special_encoding_length (s : text) :
  length (remove_special_encoding s) <= length s.
Proof.
  funelim (remove_special_encoding s); simpl; try lia.
  destruct (proj1 (match_encoding_Some _ _) e) as (tok & T & E).
  apply (f_equal (@length _)) in E. rewrite length_app in E. lia.
Qed.

Lemma remove_special_encoding_shrinks (s : text) :
  has_encoding s = true -> length (remove_special_encoding s) + 4 <= length s.
Proof.
  unfold has_encoding.
  funelim (remove_special_encoding s); cbn [re_search].
  - intros _. destruct (proj1 (match_encoding_Some _ _) e) as (tok & T & E).
    pose proof (is_encoding_length tok T).
    pose proof (remove_special_encoding_length r).
    apply (f_equal (@length _)) in E. rewrite length_app in E. lia.
  - discriminate.
  - rewrite e. intros G. simpl.
    enough (length (remove_special_encoding t) + 4 <= length t) by lia.
    apply H. destruct (re_search _ t); [reflexivity | discriminate].
Qed.

(** X4: [remove_special_encoding] never lengthens a string, shortens it by
    at least four characters when the pattern occurs, and returns its
    argument unchanged exactly when the pattern does not occur in it. *)
Theorem remove_special_encoding_unchanged_iff (s : text) :
  length (remove_special_encoding s) <= length s
  /\ (has_encoding s = true -> length (remove_special_encoding s) + 4 <= length s)
  /\ (remove_special_encoding s = s <-> has_encoding s = false).
Proof.
  split; [apply remove_special_encoding_length|].
  split; [apply remove_special_encoding_shrinks|]. split.
  - intros E. destruct (has_encoding s) eqn:H; [|reflexivity].
    apply remove_special_encoding_shrinks in H. rewrite E in H. lia.
  - apply remove_special_encoding_clean.
Qed.

Lemma remove_special_encoding_unchanged_iff_witness :
  length (remove_special_encoding (str "file#x3f;name.pdf")) + 4
  <= length (str "file#x3f;name.pdf").
Proof.
  destruct (remove_special_encoding_unchanged_iff (str "file#x3f;name.pdf"))
    as (_ & H & _).
  apply H. vm_compute. reflexivity.
Defined.

(** X5: what [remove_special_encoding] drops are occurrences of the pattern
    [#x], hex digits, [;] and nothing else: every other character stays, in
    its place. *)
Theorem remove_special_encoding_strips (s : text) :
  strips s (remove_special_encoding s).
Proof.
  funelim (remove_special_encoding s).
  - destruct (proj1 (match_encoding_Some _ _) e) as (tok & T & E).
    rewrite E. now apply strips_cut.
  - constructor.
  - now apply strips_keep.
Qed.

(** ** PDFNameAnalyzer, continued *)

Lemma is_doi_format_prefix (name : text) :
  _is_doi_format name = true ->
  exists prefix rest,
    In prefix DOI_PREFIXES /\ lower name = prefix ++ rest.
Proof.
  unfold _is_doi_format. intros H.
  apply existsb_exists in H as (prefix & Hin & Hs).
  apply startswith_iff in Hs as [rest E]. eauto.
Qed.

Lemma build_full_doi_cases (name : text) :
  _build_full_doi name = name \/ _build_full_doi name = str "10.1111/" ++ name.
Proof.
  unfold _build_full_doi.
  destruct (startswith name (str "isj.")); auto.
  destruct (startswith name (str "j.1365-2575")); auto.
  destruct (startswith name (str "10.")); auto.
Qed.

Lemma normalize_doi_format_length (name : text) :
  _is_doi_format name = true -> 2 <= length (normalize name false).
Proof.
  intros H. apply is_doi_format_prefix in H as (prefix & rest & Hin & E).
  rewrite normalize_filter, E, filter_app, length_app.
  simpl in Hin. destruct Hin as [<-|[<-|[<-|[]]]]; simpl; lia.
Qed.

(** X6: for every base name that is classified as DOI-format, [analyze]
    returns the flag [true], the title key is the letters of the cleaned
    name, and the DOI key is the letters and digits of the cleaned name,
    either alone or behind [101111]; the DOI key is never empty. *)
Theorem analyze_doi_format (pdf_name : text) :
  let cleaned := remove_special_encoding pdf_name in
  _is_doi_format cleaned = true ->
  exists norm_doi,
    analyze pdf_name = (normalize cleaned true, norm_doi, true)
    /\ (norm_doi = normalize cleaned false
        \/ norm_doi = str "101111" ++ normalize cleaned false)
    /\ 2 <= length norm_doi.
Proof.
  intros cleaned H. unfold analyze. fold cleaned. rewrite H.
  exists (normalize (_build_full_doi cleaned) false).
  split; [reflexivity|].
  pose proof (normalize_doi_format_length cleaned H) as L.
  destruct (build_full_doi_cases cleaned) as [E|E]; rewrite E.
  - auto.
  - rewrite normalize_app.
    change (normalize (str "10.1111/") false) with (str "101111").
    split; [auto|]. rewrite length_app. lia.
Qed.

Lemma analyze_doi_format_witness :
  exists norm_doi,
    analyze (str "j.1365-2575.2010.00001.x")
    = (normalize (remove_special_encoding (str "j.1365-2575.2010.00001.x")) true,
       norm_doi, true)
    /\ (norm_doi
        = normalize (remove_special_encoding (str "j.1365-2575.2010.00001.x")) false
        \/ norm_doi
           = str "101111"
             ++ normalize (remove_special_encoding (str "j.1365-2575.2010.00001.x"))
                  false)
    /\ 2 <= length norm_doi.
Proof.
  apply (analyze_doi_format (str "j.1365-2575.2010.00001.x")).
  vm_compute. reflexivity.
Defined.

Lemma year_end_at_shape (s : text) :
  year_end_at s = true ->
  exists y tail,
    s = str "_" ++ y ++ tail /\ length y = 4 /\ forallb is_digit y = true
    /\ (tail = [] \/ tail = [ascii_of_nat 10]).
Proof.
  destruct s as [|u [|d1 [|d2 [|d3 [|d4 tail]]]]]; try discriminate.
  simpl. rewrite !andb_true_iff.
  intros [[[[[U D1] D2] D3] D4] T].
  apply Ascii.eqb_eq in U. subst u.
  exists [d1; d2; d3; d4], tail. simpl. rewrite D1, D2, D3, D4.
  repeat split; auto.
  destruct tail as [|nl [|]]; try discriminate; auto.
  apply Ascii.eqb_eq in T. subst. auto.
Qed.

Lemma year_end_at_intro (y tail : text) :
  length y = 4 -> forallb is_digit y = true ->
  tail = [] \/ tail = [ascii_of_nat 10] ->
  year_end_at (str "_" ++ y ++ tail) = true.
Proof.
  intros L D T.
  destruct y as [|d1 [|d2 [|d3 [|d4 [|]]]]]; try discriminate.
  simpl in D. rewrite !andb_true_iff in D. destruct D as (D1 & D2 & D3 & D4 & _).
  destruct T as [->| ->]; simpl; now rewrite D1, D2, D3, D4.
Qed.

(** X7: the title part is always an initial piece of the name.  It is the
    whole name when the name has no underscore followed by four digits.
    When the name ends in an underscore and four digits (possibly followed
    by a final newline) and has no four digits between underscores, the
    title part is everything before that last underscore. *)
Theorem extract_title_part_cases (name : text) :
  (exists rest, name = _extract_title_part name ++ rest)
  /\ ((forall pre y post,
          length y = 4 -> forallb is_digit y = true ->
          name <> pre ++ str "_" ++ y ++ post) ->
      _extract_title_part name = name)
  /\ (forall pre y tail,
         name = pre ++ str "_" ++ y ++ tail ->
         length y = 4 -> forallb is_digit y = true ->
         tail = [] \/ tail = [ascii_of_nat 10] ->
         (forall pre' y' post',
             length y' = 4 -> forallb is_digit y' = true ->
             name <> pre' ++ str "_" ++ y' ++ str "_" ++ post') ->
         _extract_title_part name = pre).
Proof.
  split; [|split].
  - unfold _extract_title_part.
    destruct (re_search year_mid_at name) as [i|].
    + exists (skipn i name). symmetry. apply firstn_skipn.
    + destruct (re_search year_end_at name) as [i|].
      * exists (skipn i name). symmetry. apply firstn_skipn.
      * exists []. now rewrite app_nil_r.
  - intros No. unfold _extract_title_part.
    destruct (re_search year_mid_at name) as [i|] eqn:R.
    { exfalso. destruct (re_search_sound _ _ _ R) as (M & _ & _).
      apply year_mid_at_iff in M as (y & post & E & L & D).
      apply (No (firstn i name) y (str "_" ++ post) L D).
      rewrite <- (firstn_skipn i name) at 1. now rewrite E. }
    destruct (re_search year_end_at name) as [i|] eqn:R'; [|reflexivity].
    exfalso. destruct (re_search_sound _ _ _ R') as (M & _ & _).
    apply year_end_at_shape in M as (y & tail & E & L & D & _).
    apply (No (firstn i name) y tail L D).
    rewrite <- (firstn_skipn i name) at 1. now rewrite E.
  - intros pre y tail E L D T NoMid. unfold _extract_title_part.
    destruct (re_search year_mid_at name) as [i|] eqn:R.
    { exfalso. destruct (re_search_sound _ _ _ R) as (M & _ & _).
      apply year_mid_at_iff in M as (y' & post' & E' & L' & D').
      apply (NoMid (firstn i name) y' post' L' D').
      rewrite <- (firstn_skipn i name) at 1. now rewrite E'. }
    destruct (re_search_finds year_end_at pre (str "_" ++ y ++ tail)
                (year_end_at_intro y tail L D T)) as (i & R' & Hi).
    rewrite <- E in R'. rewrite R'.
    destruct (re_search_sound _ _ _ R') as (M & _ & _).
    apply year_end_at_shape in M as (y' & tail' & E' & L' & D' & T').
    assert (Q : skipn i name = skipn i pre ++ str "_" ++ y ++ tail).
    { rewrite E, skipn_app. replace (i - length pre) with 0 by lia.
      reflexivity. }
    assert (Z : skipn i pre = []).
    { destruct (skipn i pre) as [|q1 [|q2 q]] eqn:S; [reflexivity| |].
      - exfalso. rewrite Q in E'. simpl in E'.
        destruct y' as [|e1 y']; [discriminate|].
        simpl in E'. inversion E'; subst.
        simpl in D'. discriminate.
      - exfalso. apply (f_equal (@length _)) in E'.
        rewrite Q in E'. cbn [str list_ascii_of_string app] in E'.
        cbn [length] in E'. rewrite !length_app in E'. cbn [length] in E'.
        rewrite !length_app in E'.
        destruct T' as [->| ->]; cbn [length] in E'; lia. }
    apply (f_equal (@length _)) in Z. rewrite length_skipn in Z. simpl in Z.
    rewrite E, firstn_app. replace (i - length pre) with 0 by lia.
    rewrite firstn_O, app_nil_r. apply firstn_all2. lia.
Qed.

Lemma extract_title_part_cases_witness :
  _extract_title_part (str "Some-Article-Title") = str "Some-Article-Title"
  /\ _extract_title_part (str "A-title_2024") = str "A-title".
Proof.
  split.
  - destruct (extract_title_part_cases (str "Some-Article-Title")) as (_ & H & _).
    apply H. intros pre y post L D E.
    assert (C : contains (str "_") (str "Some-Article-Title") = true).
    { apply contains_iff. exists pre, (y ++ post). exact E. }
    vm_compute in C. discriminate.
  - destruct (extract_title_part_cases (str "A-title_2024")) as (_ & _ & H).
    apply (H (str "A-title") (str "2024") []); auto.
    intros pre' y' post' L D E.
    assert (C : contains (str "_" ++ y' ++ str "_") (str "A-title_2024") = true).
    { apply contains_iff. exists pre', post'. rewrite E.
      now rewrite <- !app_assoc. }
    destruct y' as [|a [|b [|c [|d [|]]]]]; try discriminate.
    revert C. simpl. rewrite !orb_false_r.
    repeat match goal with
           | |- context [Ascii.eqb ?x ?y] => destruct (Ascii.eqb_spec x y); subst
           end; simpl; try discriminate.
Defined.

(** ** PDFScanner.scan_directory *)

Lemma dict_set_keys {V : Type} (d : list (text * V)) (key : text) (value : V) :
  forall k, In k (map fst (dict_set d key value)) <-> k = key \/ In k (map fst d).
Proof.
  induction d as [|[k0 v0] d IH]; intros k; simpl.
  - intuition.
  - destruct (text_eqb_spec k0 key) as [->|N]; simpl.
    + intuition.
    + rewrite IH. intuition.
Qed.

Lemma dict_set_NoDup {V : Type} (d : list (text * V)) (key : text) (value : V) :
  NoDup (map fst d) -> NoDup (map fst (dict_set d key value)).
Proof.
  induction d as [|[k0 v0] d IH]; simpl; intros H.
  - constructor; [tauto | constructor].
  - inversion H as [|? ? Hn Hd]; subst.
    destruct (text_eqb_spec k0 key) as [->|N]; simpl.
    + now constructor.
    + constructor; [|auto]. rewrite dict_set_keys. intuition.
Qed.

Lemma dict_set_In {V : Type} (d : list (text * V)) (key : text) (value : V) :
  NoDup (map fst d) ->
  forall k v,
    In (k, v) (dict_set d key value)
    <-> (k = key /\ v = value) \/ (k <> key /\ In (k, v) d).
Proof.
  induction d as [|[k0 v0] d IH]; simpl; intros H k v.
  - split.
    + intros [[= <- <-]|[]]. auto.
    + intros [[-> ->]|[_ []]]. auto.
  - inversion H as [|? ? Hn Hd]; subst.
    destruct (text_eqb_spec k0 key) as [->|N]; simpl.
    + split.
      * intros [[= <- <-]|Hin]; [auto|]. right. split; [|auto].
        intros ->. apply Hn. apply in_map_iff. exists (key, v). auto.
      * intros [[-> ->]|[Hk [[= -> ->]|Hin]]]; auto. congruence.
    + rewrite (IH Hd). split.
      * intros [[= <- <-]|[[-> ->]|[Hk Hin]]]; auto.
      * intros [[-> ->]|[Hk [[= <- <-]|Hin]]]; auto.
Qed.

Lemma scan_fold_last_wins (entries : list DirEntry) :
  let pdf_files :=
    fold_left
      (fun pdf_files item =>
         if is_file item then dict_set pdf_files (stem item) (entry_path item)
         else pdf_files)
      entries [] in
  NoDup (map fst pdf_files)
  /\ length pdf_files <= length entries
  /\ forall name p,
      In (name, p) pdf_files
      <-> exists e, last_file_named name entries = Some e /\ entry_path e = p.
Proof.
  unfold last_file_named.
  induction entries as [|x entries IH] using rev_ind; simpl.
  - split; [constructor|]. split; [lia|]. intros name p. split; [tauto|].
    intros (e & H & _). discriminate.
  - rewrite fold_left_app, rev_app_distr, length_app. simpl.
    destruct IH as (N & L & IH).
    destruct (is_file x) eqn:F; simpl.
    + split; [now apply dict_set_NoDup|]. split.
      * assert (G : forall (d : list (text * path)) k v,
                   length (dict_set d k v) <= S (length d)).
        { induction d as [|[k0 v0] d IHd]; intros k v; simpl; [lia|].
          destruct (text_eqb k0 k); simpl; [lia|]. specialize (IHd k v). lia. }
        specialize (G (fold_left
           (fun pdf_files item =>
              if is_file item
              then dict_set pdf_files (stem item) (entry_path item)
              else pdf_files) entries []) (stem x) (entry_path x)). lia.
      * intros name p. rewrite (dict_set_In _ _ _ N), IH.
        destruct (text_eqb_spec (stem x) name) as [E|E].
        -- split.
           ++ intros [[-> ->]|[Hk _]]; [eauto | congruence].
           ++ intros (e & [= <-] & <-). auto.
        -- split.
           ++ intros [[-> _]|[_ H]]; [congruence | exact H].
           ++ intros H. right. split; [congruence | exact H].
    + split; [exact N|]. split; [lia|]. exact IH.
Qed.

(** X8: the scanned mapping has each stem once; it holds a pair exactly
    when the path is that of the last regular file with that stem among the
    entries gone through, so entries that are no files are left out and a
    later file replaces an earlier one of the same stem; and it has no more
    pairs than there were entries. *)
Theorem scan_directory_last_wins (directory : Directory) (recursive : bool) :
  let pdf_files := scan_directory directory recursive in
  let entries := yielded_by directory recursive in
  NoDup (map fst pdf_files)
  /\ length pdf_files <= length entries
  /\ forall name p,
      In (name, p) pdf_files
      <-> exists e, last_file_named name entries = Some e /\ entry_path e = p.
Proof.
  destruct directory as [|flat deep]; simpl.
  - split; [constructor|]. split; [lia|]. intros name p. split; [tauto|].
    intros (e & H & _). discriminate.
  - apply scan_fold_last_wins.
Qed.

(** ** Index construction, continued *)

Lemma index_append_keys (idx : index) (key : text) (entry : text * path) :
  forall k, In k (map fst (index_append idx key entry))
            <-> k = key \/ In k (map fst idx).
Proof.
  induction idx as [|[k0 l0] idx IH]; intros k; simpl.
  - intuition.
  - destruct (text_eqb_spec k0 key) as [->|N]; simpl.
    + intuition.
    + rewrite IH. intuition.
Qed.

Lemma index_append_wf (good : text -> bool) (idx : index) (key : text)
  (entry : text * path) :
  good key = true -> index_wf good idx ->
  index_wf good (index_append idx key entry).
Proof.
  intros G [N A]. split.
  - clear A. induction idx as [|[k0 l0] idx IH]; simpl.
    + constructor; [tauto | constructor].
    + inversion N as [|? ? Hn Hd]; subst.
      destruct (text_eqb_spec k0 key) as [->|Ne]; simpl.
      * now constructor.
      * constructor; [|auto]. rewrite index_append_keys. intuition.
  - clear N. induction idx as [|[k0 l0] idx IH]; simpl; intros k l.
    + intros [[= <- <-]|[]]. split; [discriminate | exact G].
    + destruct (text_eqb_spec k0 key) as [->|Ne]; simpl.
      * intros [[= <- <-]|H].
        -- split; [|exact G]. destruct l0; discriminate.
        -- apply A. simpl. auto.
      * intros [[= <- <-]|H].
        -- apply A. simpl. auto.
        -- apply IH; [|exact H]. intros k' l' H'. apply A. simpl. auto.
Qed.

Lemma analyze_keys (pdf_name : text) :
  forallb is_az (fst (fst (analyze pdf_name))) = true
  /\ forallb is_az09 (snd (fst (analyze pdf_name))) = true.
Proof.
  unfold analyze.
  destruct (_is_doi_format (remove_special_encoding pdf_name)); simpl; split;
    apply forallb_forall; intros c H;
    match goal with
    | H : In _ (normalize ?t ?f) |- _ =>
        apply (proj1 (Forall_forall _ _) (normalize_Forall t f) c H)
    end.
Qed.

Lemma index_step_wf (ti di : index) (item : text * path) :
  index_wf good_title_key ti -> index_wf good_doi_key di ->
  index_wf good_title_key (fst (index_step (ti, di) item))
  /\ index_wf good_doi_key (snd (index_step (ti, di) item)).
Proof.
  intros T D. destruct item as [pdf_name pdf_path]. unfold index_step.
  destruct (analyze_keys pdf_name) as [A B].
  destruct (analyze pdf_name) as [[norm_title norm_doi] is_doi].
  cbn [fst snd] in *. split.
  - destruct (truthy norm_title); cbn [andb]; [|exact T].
    destruct is_doi; cbn [andb negb]; [exact T|].
    destruct (10 <=? length norm_title) eqn:L; [|exact T].
    apply index_append_wf; [|exact T].
    unfold good_title_key. now rewrite L, A.
  - destruct (truthy norm_doi) eqn:L; [|exact D].
    apply index_append_wf; [|exact D].
    unfold good_doi_key. now rewrite L, B.
Qed.

(** X9: in the indexes built from any scan result, keys are distinct and
    no key has an empty list of files; every title key has at least 10
    characters, all of them lower-case letters; every DOI key is not empty
    and made of lower-case letters and digits. *)
Theorem build_indexes_wf (pdf_files : list (text * path)) :
  let title_index := fst (build_indexes pdf_files) in
  let doi_index := snd (build_indexes pdf_files) in
  NoDup (map fst title_index)
  /\ NoDup (map fst doi_index)
  /\ (forall k l, In (k, l) title_index ->
                  l <> [] /\ 10 <= length k /\ forallb is_az k = true)
  /\ (forall k l, In (k, l) doi_index ->
                  l <> [] /\ k <> [] /\ forallb is_az09 k = true).
Proof.
  cbv zeta. unfold build_indexes.
  assert (G : forall ti di,
             index_wf good_title_key ti -> index_wf good_doi_key di ->
             index_wf good_title_key (fst (fold_left index_step pdf_files (ti, di)))
             /\ index_wf good_doi_key
                  (snd (fold_left index_step pdf_files (ti, di)))).
  { induction pdf_files as [|item rest IH]; intros ti di T D;
      cbn [fold_left fst snd]; [auto|].
    destruct (index_step_wf ti di item T D) as [T' D'].
    destruct (index_step (ti, di) item) as [ti' di']. now apply IH. }
  destruct (G [] []) as [[N1 A1] [N2 A2]].
  { split; [constructor | intros k l []]. }
  { split; [constructor | intros k l []]. }
  split; [exact N1|]. split; [exact N2|]. split.
  - intros k l H. destruct (A1 k l H) as [E Gk]. split; [exact E|].
    unfold good_title_key in Gk. apply andb_true_iff in Gk as [L F].
    apply Nat.leb_le in L. auto.
  - intros k l H. destruct (A2 k l H) as [E Gk]. split; [exact E|].
    unfold good_doi_key in Gk. apply andb_true_iff in Gk as [L F].
    apply truthy_true in L. auto.
Qed.

Lemma build_indexes_wf_witness :
  10 <= length (str "acomputervisionbased")
  /\ forallb is_az (str "acomputervisionbased") = true.
Proof.
  destruct (build_indexes_wf (scan_directory test_pdf_dir false))
    as (_ & _ & H & _).
  destruct (H (str "acomputervisionbased")
              [(str "A-computer-vision-based_2024_DSS",
                str "/pdfs/A-computer-vision-based_2024_DSS.pdf")])
    as (_ & A & B).
  - vm_compute. left. reflexivity.
  - split; [exact A | exact B].
Defined.

(** ** PDFMatcher, end to end *)

Lemma build_indexes_has (pdf_files : list (text * path)) (k : text)
  (e : text * path) :
  (index_has (fst (build_indexes pdf_files)) k e
   <-> In e pdf_files /\ title_contribution (fst e) k)
  /\ (index_has (snd (build_indexes pdf_files)) k e
      <-> In e pdf_files /\ doi_contribution (fst e) k).
Proof.
  unfold build_indexes.
  destruct (fold_index_step_has pdf_files [] [] k e) as [A B].
  rewrite A, B. unfold index_has. cbn [In].
  split; split; intros H.
  - destruct H as [(l & [] & _)|H]; exact H.
  - right; exact H.
  - destruct H as [(l & [] & _)|H]; exact H.
  - right; exact H.
Qed.

Lemma locations_of_has (test : text -> bool) (idx : index) (p : path) :
  In p (locations_of test idx)
  <-> exists k n, index_has idx k (n, p) /\ test k = true.
Proof.
  rewrite locations_of_In. unfold index_has. split.
  - intros (k & l & n & A & B & C). eauto 8.
  - intros (k & n & (l & A & B) & C). eauto 8.
Qed.

Lemma doi_phase_hits (self : PDFMatcher) (r : LitRecord)
  (pdf_files : list (text * path)) (p : path) :
  In p (doi_phase self r (snd (build_indexes pdf_files)))
  <-> exists n, In (n, p) pdf_files /\ doi_hit self r n = true.
Proof.
  unfold doi_phase, doi_hit.
  set (norm_doi := normalize (get r (doi_column self) []) false).
  assert (E : (if truthy (get r (doi_column self) [])
               then if 5 <=? length norm_doi
                    then collect (doi_entry_matches norm_doi)
                           (snd (build_indexes pdf_files)) []
                    else []
               else [])
              = if 5 <=? length norm_doi
                then locations_of (doi_entry_matches norm_doi)
                       (snd (build_indexes pdf_files))
                else []).
  { rewrite collect_locations. simpl.
    destruct (truthy (get r (doi_column self) [])) eqn:T; [reflexivity|].
    apply truthy_false in T. unfold norm_doi. rewrite T. reflexivity. }
  rewrite E. clear E.
  destruct (5 <=? length norm_doi) eqn:L; cbn [andb].
  - rewrite locations_of_has. split.
    + intros (k & n & H & M). exists n.
      apply build_indexes_has in H as [Hin C]. simpl in C.
      unfold doi_contribution in C. split; [exact Hin|].
      destruct (analyze n) as [[t d] b]. destruct C as [-> _].
      apply doi_entry_matches_iff in M as [Lk M]. cbn [andb].
      apply andb_true_iff. split; [now apply Nat.leb_le|].
      apply contains_iff. destruct M as [->|M]; [|exact M].
      exists [], []. now rewrite app_nil_r.
    + intros (n & Hin & H).
      destruct (analyze n) as [[t d] b] eqn:An. cbn [andb] in H.
      apply andb_true_iff in H as [Lk C]. apply Nat.leb_le in Lk.
      exists d, n. split.
      * apply build_indexes_has. split; [exact Hin|]. simpl.
        unfold doi_contribution. rewrite An. split; [reflexivity|].
        intros ->. simpl in Lk. lia.
      * apply doi_entry_matches_iff. split; [exact Lk|]. right.
        now apply contains_iff.
  - split; [intros []|]. intros (n & _ & H).
    destruct (analyze n) as [[t d] b]. discriminate.
Qed.

Lemma title_phase_hits (self : PDFMatcher) (r : LitRecord)
  (pdf_files : list (text * path)) (p : path) :
  In p (title_phase self r (fst (build_indexes pdf_files)) [])
  <-> exists n, In (n, p) pdf_files /\ title_hit self r n = true.
Proof.
  unfold title_phase, title_hit.
  set (norm_title := normalize (get r (title_column self) []) true).
  assert (E : (if negb (truthy (@nil path)) && truthy (get r (title_column self) [])
               then collect (title_entry_matches norm_title)
                      (fst (build_indexes pdf_files)) []
               else [])
              = locations_of (title_entry_matches norm_title)
                  (fst (build_indexes pdf_files))).
  { rewrite collect_locations. simpl.
    destruct (truthy (get r (title_column self) [])) eqn:T; [reflexivity|].
    symmetry. apply locations_of_none. intros k.
    apply truthy_false in T. unfold norm_title. rewrite T.
    destruct k; reflexivity. }
  rewrite E. clear E. rewrite locations_of_has. split.
  - intros (k & n & H & M). exists n.
    apply build_indexes_has in H as [Hin C]. simpl in C.
    unfold title_contribution in C. split; [exact Hin|].
    destruct (analyze n) as [[t d] b]. destruct C as (-> & _ & -> & L).
    unfold title_entry_matches in M. apply andb_true_iff in M as [_ M].
    apply Nat.leb_le in L. cbn [negb andb]. now rewrite L, M.
  - intros (n & Hin & H).
    destruct (analyze n) as [[t d] b] eqn:An.
    apply andb_true_iff in H as [H S]. apply andb_true_iff in H as [B L].
    apply negb_true_iff in B. apply Nat.leb_le in L.
    exists t, n. split.
    + apply build_indexes_has. split; [exact Hin|]. simpl.
      unfold title_contribution. rewrite An.
      repeat split; auto. intros ->. simpl in L. lia.
    + unfold title_entry_matches. rewrite S.
      destruct t; [simpl in L; lia | reflexivity].
Qed.

Lemma match_single_record_hits (self : PDFMatcher) (idx : nat) (r : LitRecord)
  (pdf_files : list (text * path)) (p : path) :
  In p (matched_pdfs
          (_match_single_record self idx r (fst (build_indexes pdf_files))
             (snd (build_indexes pdf_files))))
  <-> (exists n, In (n, p) pdf_files /\ doi_hit self r n = true)
      \/ ((forall n q, In (n, q) pdf_files -> doi_hit self r n = false)
          /\ exists n, In (n, p) pdf_files /\ title_hit self r n = true).
Proof.
  rewrite match_single_record_locations, fromkeys_In.
  destruct (doi_phase self r (snd (build_indexes pdf_files))) as [|q0 found] eqn:D.
  - rewrite title_phase_hits.
    assert (No : forall n q, In (n, q) pdf_files -> doi_hit self r n = false).
    { intros n q Hin. destruct (doi_hit self r n) eqn:H; [|reflexivity].
      exfalso. assert (G : In q []) by (rewrite <- D; apply doi_phase_hits; eauto).
      exact G. }
    split.
    + intros H. right. auto.
    + intros [(n & Hin & H)|[_ H]]; [|exact H].
      rewrite (No n p Hin) in H. discriminate.
  - assert (T : title_phase self r (fst (build_indexes pdf_files)) (q0 :: found)
                = q0 :: found) by reflexivity.
    rewrite T, <- D, doi_phase_hits. split; [auto|].
    intros [H|[No _]]; [exact H|]. exfalso.
    assert (G : In q0 (doi_phase self r (snd (build_indexes pdf_files))))
      by (rewrite D; simpl; auto).
    apply doi_phase_hits in G as (n & Hin & H).
    rewrite (No n q0 Hin) in H. discriminate.
Qed.

(** X10: [match_all] keeps the records in their order: the n-th outcome
    belongs to the n-th record and carries the index n, whether files were
    found or not. *)
Theorem match_all_order (self : PDFMatcher) (pdfs_dir : Directory)
  (data_result : DataSourceResult) (interactive recursive_scan : bool) :
  let b := match_all self pdfs_dir data_result interactive recursive_scan in
  map record (results b) = records data_result
  /\ map record_index (results b) = seq 0 (length (records data_result)).
Proof.
  cbv zeta. rewrite match_all_results.
  assert (G : forall (f : nat -> LitRecord -> MatchResult),
             (forall i r, record (f i r) = r /\ record_index (f i r) = i) ->
             forall l start,
               map record (enumerate_map f start l) = l
               /\ map record_index (enumerate_map f start l)
                  = seq start (length l)).
  { intros f Hf. induction l as [|x l IH]; intros start; simpl; [auto|].
    destruct (Hf start x) as [-> ->]. destruct (IH (S start)) as [-> ->]. auto. }
  destruct (scan_directory pdfs_dir recursive_scan); apply G.
  - intros i r. split; reflexivity.
  - intros i r. unfold _match_single_record.
    destruct (fromkeys _) as [|a [|c rest]]; split; reflexivity.
Qed.

(** X11: which files an outcome of [match_all] names.  A path is among the
    locations of a record's outcome exactly when it is the path of a
    scanned file whose name answers the record's DOI, or no scanned file
    answers the DOI and it is the path of a scanned file whose name answers
    the record's title.  So every location is a scanned path, and a record
    with a DOI hit never gets files through its title. *)
Theorem match_all_locations (self : PDFMatcher) (pdfs_dir : Directory)
  (data_result : DataSourceResult) (interactive recursive_scan : bool)
  (o : MatchResult) (p : path) :
  let pdf_files := scan_directory pdfs_dir recursive_scan in
  In o (results (match_all self pdfs_dir data_result interactive recursive_scan)) ->
  (In p (matched_pdfs o)
   <-> (exists n, In (n, p) pdf_files /\ doi_hit self (record o) n = true)
       \/ ((forall n q, In (n, q) pdf_files -> doi_hit self (record o) n = false)
           /\ exists n, In (n, p) pdf_files /\ title_hit self (record o) n = true)).
Proof.
  intros pdf_files. rewrite match_all_results. fold pdf_files.
  destruct pdf_files as [|f fs] eqn:E.
  - intros H. apply enumerate_map_In in H as (i & r & _ & ->). simpl.
    split; [tauto|]. intros [(n & [] & _)|[_ (n & [] & _)]].
  - intros H. apply enumerate_map_In in H as (i & r & _ & ->).
    assert (R : record (_match_single_record self i r
                          (fst (build_indexes (f :: fs)))
                          (snd (build_indexes (f :: fs)))) = r).
    { unfold _match_single_record. destruct (fromkeys _) as [|a [|c l]]; reflexivity. }
    rewrite R. apply match_single_record_hits.
Qed.

Lemma match_all_locations_witness :
  In (str "/pdfs/isj.12345.pdf")
     (matched_pdfs
        {| record_index := 1; record := test_record_2; status := MATCHED;
           matched_pdfs := [str "/pdfs/isj.12345.pdf"]; reason := [] |})
  <-> (exists n,
          In (n, str "/pdfs/isj.12345.pdf") (scan_directory test_pdf_dir false)
          /\ doi_hit test_matcher test_record_2 n = true)
      \/ ((forall n q,
              In (n, q) (scan_directory test_pdf_dir false) ->
              doi_hit test_matcher test_record_2 n = false)
          /\ exists n,
              In (n, str "/pdfs/isj.12345.pdf") (scan_directory test_pdf_dir false)
              /\ title_hit test_matcher test_record_2 n = true).
Proof.
  apply (match_all_locations test_matcher test_pdf_dir test_data_result
           false false
           {| record_index := 1; record := test_record_2; status := MATCHED;
              matched_pdfs := [str "/pdfs/isj.12345.pdf"]; reason := [] |}
           (str "/pdfs/isj.12345.pdf")).
  vm_compute. right. left. reflexivity.
Defined.

(** ** MatchResult and BatchMatchResult, continued *)

Lemma match_all_invariant (self : PDFMatcher) (pdfs_dir : Directory)
  (data_result : DataSourceResult) (interactive recursive_scan : bool)
  (o : MatchResult) :
  In o (results (match_all self pdfs_dir data_result interactive recursive_scan)) ->
  outcome_invariant o.
Proof.
  rewrite match_all_results.
  destruct (scan_directory pdfs_dir recursive_scan) as [|f fs]; intros H;
    apply enumerate_map_In in H as (i & r & _ & ->).
  - unfold outcome_invariant, no_files_outcome. simpl.
    split; [tauto|]. split; [split; discriminate|].
    split; [split; [lia | discriminate]|].
    split; [intros _; discriminate | constructor].
  - apply match_single_record_invariant.
Qed.

(** X12: in a result of [match_all], [matched_pdf] gives a path exactly
    for the outcomes with status [MATCHED], and that path is the single
    location of the outcome; for every other outcome it is [None]. *)
Theorem matched_pdf_of_outcome (self : PDFMatcher) (pdfs_dir : Directory)
  (data_result : DataSourceResult) (interactive recursive_scan : bool)
  (o : MatchResult) :
  In o (results (match_all self pdfs_dir data_result interactive recursive_scan)) ->
  (forall p, matched_pdf o = Some p <-> status o = MATCHED /\ matched_pdfs o = [p])
  /\ (matched_pdf o = None <-> is_matched o = false)
  /\ (is_matched o = true -> is_multi_matched o = false).
Proof.
  intros H.
  destruct (match_all_invariant _ _ _ _ _ _ H) as (_ & M & _).
  unfold matched_pdf, is_matched, is_multi_matched.
  destruct (status o) eqn:S; cbn [status_eqb andb].
  - destruct M as [_ M]. specialize (M eq_refl).
    destruct (matched_pdfs o) as [|a [|c l]]; try discriminate M. cbn.
    split; [|split].
    + intros p. split; [intros [= ->]; auto | intros [_ [= ->]]; auto].
    + split; discriminate.
    + reflexivity.
  - split; [|split].
    + intros p. split; [discriminate | intros [? _]; discriminate].
    + split; intros; reflexivity.
    + discriminate.
  - split; [|split].
    + intros p. split; [discriminate | intros [? _]; discriminate].
    + split; intros; reflexivity.
    + discriminate.
Qed.

Lemma matched_pdf_of_outcome_witness :
  matched_pdf
    {| record_index := 1; record := test_record_2; status := MATCHED;
       matched_pdfs := [str "/pdfs/isj.12345.pdf"]; reason := [] |}
  = Some (str "/pdfs/isj.12345.pdf").
Proof.
  destruct (matched_pdf_of_outcome test_matcher test_pdf_dir test_data_result
              false false
              {| record_index := 1; record := test_record_2; status := MATCHED;
                 matched_pdfs := [str "/pdfs/isj.12345.pdf"]; reason := [] |})
    as (H & _).
  - vm_compute. right. left. reflexivity.
  - apply H. split; reflexivity.
Defined.

(** X13: for every batch result, also one built by hand, the three counts
    reported by [to_stats_dict] add up to the number of outcomes it holds,
    and the dictionary has its five keys once each. *)
Theorem to_stats_dict_counts (b : BatchMatchResult) :
  dict_get (to_stats_dict b) (str "matched") 0
  + dict_get (to_stats_dict b) (str "unmatched") 0
  + dict_get (to_stats_dict b) (str "multi_matched") 0
  = length (results b)
  /\ dict_get (to_stats_dict b) (str "total_records") 0 = total_records b
  /\ dict_get (to_stats_dict b) (str "total_pdfs") 0 = total_pdfs b
  /\ NoDup (map fst (to_stats_dict b)).
Proof.
  split; [|split; [reflexivity|split; [reflexivity|]]].
  - change (matched_count b + unmatched_count b + multi_matched_count b
            = length (results b)).
    unfold matched_count, unmatched_count, multi_matched_count, matched_results,
      unmatched_results, multi_matched_results.
    apply status_partition.
  - simpl. repeat constructor; simpl; intuition discriminate.
Qed.

Lemma filter_length_all {A : Type} (f : A -> bool) (l : list A) :
  length (filter f l) = length l <-> forall x, In x l -> f x = true.
Proof.
  induction l as [|x l IH]; simpl.
  - split; [intros _ y [] | reflexivity].
  - pose proof (filter_length_le f l) as L.
    destruct (f x) eqn:E; simpl.
    + split.
      * intros H y [<-|Hy]; [exact E|]. apply IH; [lia | exact Hy].
      * intros H. f_equal. apply IH. auto.
    + split; [lia|]. intros H. specialize (H x (or_introl eq_refl)). congruence.
Qed.

(** X14: the match rate of a result of [match_all] lies between 0 and 1,
    and when there is at least one record it is 1 exactly when every
    outcome is [MATCHED]. *)
Theorem match_all_rate_bounds (self : PDFMatcher) (pdfs_dir : Directory)
  (data_result : DataSourceResult) (interactive recursive_scan : bool) :
  let b := match_all self pdfs_dir data_result interactive recursive_scan in
  (0 <= match_rate b)%Q /\ (match_rate b <= 1)%Q
  /\ (0 < total_records b ->
      ((match_rate b == 1)%Q <-> forall o, In o (results b) -> status o = MATCHED)).
Proof.
  intros b.
  destruct (match_all_totals self pdfs_dir data_result interactive recursive_scan)
    as (T1 & _ & T3). fold b in T1, T3.
  assert (Le : matched_count b <= total_records b).
  { unfold matched_count, matched_results. rewrite T1, <- T3.
    apply filter_length_le. }
  unfold match_rate.
  destruct (Nat.eqb_spec (total_records b) 0) as [Z|NZ].
  - split; [discriminate|]. split; [discriminate|]. lia.
  - assert (P : Z.pos (Pos.of_nat (total_records b)) = Z.of_nat (total_records b)).
    { destruct (total_records b) as [|n]; [lia|].
      cbn [Z.of_nat]. now rewrite Pos.of_nat_succ. }
    split; [|split].
    + unfold Qle. simpl. lia.
    + unfold Qle. simpl. rewrite P. lia.
    + intros _. unfold Qeq. simpl. rewrite P, Z.mul_1_r.
      rewrite Nat2Z.inj_iff.
      unfold matched_count, matched_results. rewrite T1, <- T3.
      rewrite filter_length_all. split; intros H o Ho; specialize (H o Ho).
      * destruct (status o); simpl in H; congruence.
      * now rewrite H.
Qed.

Lemma match_all_rate_bounds_witness :
  (match_rate test_batch == 1)%Q
  <-> forall o, In o (results test_batch) -> status o = MATCHED.
Proof.
  destruct (match_all_rate_bounds test_matcher test_pdf_dir test_data_result
              false false) as (_ & _ & H).
  apply H. vm_compute. lia.
Defined.

(** X15: a record whose DOI field normalizes to fewer than 5 characters
    and whose title field normalizes to fewer than 10 letters, in
    particular a record that lacks both fields, comes out of [match_all]
    as [UNMATCHED] with no location, whatever files were scanned. *)
Theorem match_all_poor_record (self : PDFMatcher) (pdfs_dir : Directory)
  (data_result : DataSourceResult) (interactive recursive_scan : bool)
  (o : MatchResult) :
  In o (results (match_all self pdfs_dir data_result interactive recursive_scan)) ->
  length (normalize (get (record o) (doi_column self) []) false) < 5 ->
  length (normalize (get (record o) (title_column self) []) true) < 10 ->
  status o = UNMATCHED /\ matched_pdfs o = [] /\ reason o <> [].
Proof.
  intros H Ld Lt.
  destruct (match_all_invariant _ _ _ _ _ _ H) as (U & _ & _ & R & _).
  assert (E : matched_pdfs o = []).
  { destruct (matched_pdfs o) as [|p l] eqn:M; [reflexivity|]. exfalso.
    assert (Hp : In p (matched_pdfs o)) by (rewrite M; simpl; auto).
    revert H Hp. rewrite match_all_results.
    destruct (scan_directory pdfs_dir recursive_scan) as [|f fs] eqn:S; intros H;
      apply enumerate_map_In in H as (i & r & _ & ->).
    - simpl. tauto.
    - assert (Rr : record (_match_single_record self i r
                            (fst (build_indexes (f :: fs)))
                            (snd (build_indexes (f :: fs)))) = r).
      { unfold _match_single_record.
        destruct (fromkeys _) as [|a [|c rest]]; reflexivity. }
      rewrite Rr in Ld, Lt. rewrite match_single_record_hits.
      intros [(n & _ & Hd)|[_ (n & _ & Ht)]].
      + unfold doi_hit in Hd. destruct (analyze n) as [[t d] b].
        apply Nat.leb_gt in Ld. rewrite Ld in Hd. discriminate.
      + unfold title_hit in Ht. destruct (analyze n) as [[t d] b].
        apply andb_true_iff in Ht as [Ht St].
        apply andb_true_iff in Ht as [_ Lk]. apply Nat.leb_le in Lk.
        apply startswith_iff in St as [rest St].
        rewrite St, length_app in Lt. lia. }
  split; [now apply U|]. split; [exact E|].
  apply R. left. now apply U.
Qed.

Lemma match_all_poor_record_witness :
  status
    (_match_single_record
       {| title_column := str "label"; doi_column := str "doi" |}
       0 test_record_1 test_title_index test_doi_index) = UNMATCHED.
Proof.
  apply (match_all_poor_record
           {| title_column := str "label"; doi_column := str "doi" |}
           test_pdf_dir test_data_result false false
           (_match_single_record
              {| title_column := str "label"; doi_column := str "doi" |}
              0 test_record_1 test_title_index test_doi_index)).
  - vm_compute. left. reflexivity.
  - vm_compute. lia.
  - vm_compute. lia.
Defined.

(** ** exporters.generate_doi_url *)

Lemma lstrip_head (s : text) :
  lstrip s = [] \/ exists c r, lstrip s = c :: r /\ is_space c = false.
Proof.
  induction s as [|c s IH]; simpl; [auto|].
  destruct (is_space c) eqn:E; [exact IH|]. right. eauto.
Qed.

Lemma lstrip_suffix (s : text) : exists pre, s = pre ++ lstrip s.
Proof.
  induction s as [|c s [pre IH]]; simpl.
  - exists []. reflexivity.
  - destruct (is_space c).
    + exists (c :: pre). simpl. now rewrite <- IH.
    + exists []. reflexivity.
Qed.

Lemma lstrip_fixed_app (x y : text) :
  lstrip x = x -> x <> [] -> lstrip (x ++ y) = x ++ y.
Proof.
  destruct x as [|c x]; [congruence|]. simpl. intros H _.
  destruct (is_space c) eqn:E; [|reflexivity]. exfalso.
  destruct (lstrip_suffix x) as [pre P].
  apply (f_equal (@length _)) in H. apply (f_equal (@length _)) in P.
  rewrite length_app in P. simpl in H. lia.
Qed.

Lemma lstrip_idempotent (s : text) : lstrip (lstrip s) = lstrip s.
Proof.
  destruct (lstrip_head s) as [E|(c & r & E & Hc)]; rewrite E; simpl;
    [reflexivity|]. now rewrite Hc.
Qed.

Lemma strip_trimmed (s : text) : trimmed (strip s).
Proof.
  unfold trimmed, strip, rstrip. rewrite rev_involutive, lstrip_idempotent.
  split; [|reflexivity].
  remember (lstrip s) as t eqn:Ht. remember (lstrip (rev t)) as u eqn:Hu.
  destruct (lstrip_suffix (rev t)) as [pre P]. rewrite <- Hu in P.
  assert (T : t = rev u ++ rev pre).
  { rewrite <- (rev_involutive t), P, rev_app_distr. reflexivity. }
  destruct (rev u) as [|c w]; [reflexivity|].
  simpl. destruct (is_space c) eqn:E; [|reflexivity]. exfalso.
  destruct (lstrip_head s) as [F|(c' & r & F & Hc)]; rewrite <- Ht in F;
    rewrite F in T; simpl in T; [discriminate|].
  injection T as -> _. congruence.
Qed.

Lemma strip_of_trimmed (s : text) : trimmed s -> strip s = s.
Proof.
  intros [A B]. unfold strip, rstrip. rewrite A, B. apply rev_involutive.
Qed.

Lemma trimmed_app (x y : text) :
  lstrip x = x -> x <> [] -> trimmed y -> y <> [] -> trimmed (x ++ y).
Proof.
  intros Hx Nx [_ Hy] Ny. split.
  - now apply lstrip_fixed_app.
  - rewrite rev_app_distr. apply lstrip_fixed_app; [exact Hy|].
    intros E. apply Ny. rewrite <- (rev_involutive y), E. reflexivity.
Qed.

(** X16: [generate_doi_url] returns the empty string exactly for an empty
    or all-blank DOI; any other result begins with [http] and has no white
    space at either end; and applying it to its own result changes
    nothing. *)
Theorem generate_doi_url_idempotent (doi : text) :
  (generate_doi_url doi = [] <-> strip doi = [])
  /\ (generate_doi_url doi <> [] ->
      startswith (generate_doi_url doi) (str "http") = true)
  /\ strip (generate_doi_url doi) = generate_doi_url doi
  /\ generate_doi_url (generate_doi_url doi) = generate_doi_url doi.
Proof.
  assert (Empty : strip [] = []) by reflexivity.
  assert (Shape : generate_doi_url doi = []
                  \/ (generate_doi_url doi <> []
                      /\ trimmed (generate_doi_url doi)
                      /\ startswith (generate_doi_url doi) (str "http") = true
                      /\ strip doi <> [])).
  { unfold generate_doi_url.
    destruct doi as [|c doi]; [left; reflexivity|]. cbn [truthy negb orb].
    destruct (strip (c :: doi)) as [|d t] eqn:S; [left; reflexivity|].
    cbn [truthy negb]. right.
    pose proof (strip_trimmed (c :: doi)) as T. rewrite S in T.
    destruct (startswith (d :: t) (str "http")) eqn:H.
    - repeat split; try discriminate; try apply T. exact H.
    - split; [discriminate|]. split; [|split; [reflexivity | discriminate]].
      apply trimmed_app; [reflexivity | discriminate | exact T | discriminate]. }
  split; [|split; [|split]].
  - split.
    + intros E. unfold generate_doi_url in E.
      destruct doi as [|c doi]; [reflexivity|]. cbn [truthy negb orb] in E.
      destruct (strip (c :: doi)) as [|d t]; [reflexivity|].
      cbn [truthy negb] in E.
      destruct (startswith (d :: t) (str "http")); discriminate.
    + intros E. unfold generate_doi_url. rewrite E.
      destruct doi; reflexivity.
  - intros N. destruct Shape as [E|(_ & _ & H & _)]; [congruence | exact H].
  - destruct Shape as [E|(_ & T & _)]; [now rewrite E|].
    now apply strip_of_trimmed.
  - destruct Shape as [E|(N & T & H & _)]; [now rewrite E|].
    set (r := generate_doi_url doi) in *.
    unfold generate_doi_url at 1. rewrite (strip_of_trimmed r T), H.
    destruct r; [congruence | reflexivity].
Qed.

Lemma generate_doi_url_idempotent_witness :
  startswith (generate_doi_url (str "  10.1234/test  ")) (str "http") = true.
Proof.
  destruct (generate_doi_url_idempotent (str "  10.1234/test  ")) as (_ & H & _).
  apply H. vm_compute. discriminate.
Defined.

Example test_generate_doi_url :
  generate_doi_url (str "10.1234/test") = str "https://doi.org/10.1234/test"
  /\ generate_doi_url (str "https://doi.org/10.1234/test")
     = str "https://doi.org/10.1234/test"
  /\ generate_doi_url [] = []
  /\ generate_doi_url (str "  10.1234/test  ") = str "https://doi.org/10.1234/test".
Proof. vm_compute. repeat split. Qed.

(** ** exporters.PDFCopier.copy_matched_pdfs *)

Lemma copy_one_tally (F : FileSystem) (output_dir : path) (uuid_field : text)
  (overwrite : bool) (fs : FS F) (stats : CopyStats) (m : MatchResult) :
  let after := snd (copy_one F output_dir uuid_field overwrite (fs, stats) m) in
  total after = total stats
  /\ copied after + skipped after + failed after
     = copied stats + skipped stats + failed stats + 1
  /\ (length (copied_files stats) = copied stats ->
      length (copied_files after) = copied after)
  /\ (length (failed_files stats) = failed stats ->
      length (failed_files after) = failed after).
Proof.
  unfold copy_one.
  destruct (matched_pdf m) as [src|]; cbn [snd].
  2:{ simpl. rewrite length_app. simpl. repeat split; lia. }
  destruct (negb (path_exists F fs src)); cbn [snd].
  { simpl. rewrite length_app. simpl. repeat split; lia. }
  destruct (path_exists F fs _ && negb overwrite); cbn [snd].
  { simpl. repeat split; lia. }
  destruct (copy2 F fs src _) as [fs' [e|]]; simpl; rewrite length_app; simpl;
    repeat split; lia.
Qed.

Lemma copy_fold_tally (F : FileSystem) (output_dir : path) (uuid_field : text)
  (overwrite : bool) (l : list MatchResult) :
  forall fs stats,
    let after :=
      snd (fold_left (copy_one F output_dir uuid_field overwrite) l (fs, stats)) in
    total after = total stats
    /\ copied after + skipped after + failed after
       = copied stats + skipped stats + failed stats + length l
    /\ (length (copied_files stats) = copied stats ->
        length (copied_files after) = copied after)
    /\ (length (failed_files stats) = failed stats ->
        length (failed_files after) = failed after).
Proof.
  induction l as [|m l IH]; intros fs stats; cbn [fold_left length].
  - simpl. repeat split; auto; lia.
  - destruct (copy_one_tally F output_dir uuid_field overwrite fs stats m)
      as (A & B & C & D).
    destruct (copy_one F output_dir uuid_field overwrite (fs, stats) m)
      as [fs1 stats1].
    cbn [snd] in A, B, C, D.
    destruct (IH fs1 stats1) as (A' & B' & C' & D').
    cbv zeta. repeat split; try lia; auto.
Qed.

(** X17: when [copy_matched_pdfs] returns, its statistics add up: [total]
    is the number of [MATCHED] outcomes, every one of them is counted once
    as copied, skipped or failed, and the two lists have as many entries as
    their counters say.  This holds for any behaviour of the file
    system. *)
Theorem copy_matched_pdfs_tally (F : FileSystem) (fs fs' : FS F)
  (output_dir : path) (result : BatchMatchResult) (uuid_field : text)
  (overwrite : bool) (stats : CopyStats) :
  copy_matched_pdfs F fs output_dir result uuid_field overwrite
  = Some (fs', stats) ->
  total stats = matched_count result
  /\ copied stats + skipped stats + failed stats = total stats
  /\ length (copied_files stats) = copied stats
  /\ length (failed_files stats) = failed stats.
Proof.
  unfold copy_matched_pdfs.
  destruct (mkdir F fs output_dir) as [fs1|]; [|discriminate].
  intros [= E].
  pose proof (copy_fold_tally F output_dir uuid_field overwrite
                (matched_results result) fs1
                {| total := length (matched_results result); copied := 0;
                   skipped := 0; failed := 0; copied_files := [];
                   failed_files := [] |}) as T.
  cbv zeta in T. cbn [total copied skipped failed copied_files failed_files] in *.
  rewrite E in T. cbn [snd] in T. destruct T as (A & B & C & D).
  unfold matched_count. simpl in B, C, D. repeat split; auto; lia.
Qed.

Lemma copy_matched_pdfs_tally_witness :
  exists fs' stats,
    copy_matched_pdfs listed_files test_files (str "/out") test_batch [] false
    = Some (fs', stats)
    /\ total stats = 2 /\ copied stats = 2
    /\ copied_files stats
       = [str "/out/A-computer-vision-based_2024_DSS.pdf";
          str "/out/isj.12345.pdf"].
Proof.
  destruct (copy_matched_pdfs listed_files test_files (str "/out") test_batch
              [] false) as [[fs' stats]|] eqn:E; [|vm_compute in E; discriminate].
  exists fs', stats. split; [reflexivity|].
  destruct (copy_matched_pdfs_tally listed_files test_files fs' (str "/out")
              test_batch [] false stats E) as (T & _).
  vm_compute in E. injection E as _ <-. repeat split.
Defined.

Lemma copy_one_clobber_free (F : FileSystem) (output_dir : path)
  (uuid_field : text) (fs0 fs : FS F) (stats : CopyStats) (m : MatchResult) :
  keeps_files F -> clobber_free F fs0 fs stats ->
  clobber_free F fs0
    (fst (copy_one F output_dir uuid_field false (fs, stats) m))
    (snd (copy_one F output_dir uuid_field false (fs, stats) m)).
Proof.
  intros (_ & Keep & Made) (N & A & M). unfold copy_one.
  destruct (matched_pdf m) as [src|]; [|split; auto].
  destruct (negb (path_exists F fs src)); [split; auto|].
  set (dst := path_join F output_dir (dst_name_of F uuid_field m src)).
  destruct (path_exists F fs dst) eqn:E; cbn [andb negb]; [split; auto|].
  pose proof (Keep fs src dst) as K. pose proof (Made fs src dst) as D.
  destruct (copy2 F fs src dst) as [fs' [e|]]; cbn [fst snd] in *.
  - split; [exact N|]. split.
    + intros p Hp. destruct (A p Hp). auto.
    + auto.
  - split; [|split].
    + apply NoDup_app; [exact N | |].
      * constructor; [intros [] | constructor].
      * intros p Hp [Q|[]]. destruct (A p Hp). congruence.
    + intros p Hp. apply in_app_or in Hp as [Hp|[Q|[]]].
      * destruct (A p Hp). auto.
      * rewrite <- Q. split; [auto|].
        destruct (path_exists F fs0 dst) eqn:G; [|reflexivity].
        apply M in G. congruence.
    + auto.
Qed.

(** X18: on a file system that keeps its files, a run with
    [overwrite = False] never copies onto a path that existed before the
    run, and never copies to the same path twice. *)
Theorem copy_matched_pdfs_no_clobber (F : FileSystem) (fs fs' : FS F)
  (output_dir : path) (result : BatchMatchResult) (uuid_field : text)
  (stats : CopyStats) :
  keeps_files F ->
  copy_matched_pdfs F fs output_dir result uuid_field false = Some (fs', stats) ->
  NoDup (copied_files stats)
  /\ forall p, In p (copied_files stats) ->
               path_exists F fs p = false /\ path_exists F fs' p = true.
Proof.
  intros K. unfold copy_matched_pdfs.
  destruct (mkdir F fs output_dir) as [fs1|] eqn:Mk; [|discriminate].
  intros [= E].
  assert (G : forall l fsa sa,
             clobber_free F fs fsa sa ->
             clobber_free F fs
               (fst (fold_left (copy_one F output_dir uuid_field false) l (fsa, sa)))
               (snd (fold_left (copy_one F output_dir uuid_field false) l (fsa, sa)))).
  { induction l as [|m l IH]; intros fsa sa C; cbn [fold_left]; [exact C|].
    pose proof (copy_one_clobber_free F output_dir uuid_field fs fsa sa m K C)
      as C1.
    destruct (copy_one F output_dir uuid_field false (fsa, sa) m) as [fsb sb].
    now apply IH. }
  specialize (G (matched_results result) fs1
                {| total := length (matched_results result); copied := 0;
                   skipped := 0; failed := 0; copied_files := [];
                   failed_files := [] |}).
  cbn [total copied skipped failed copied_files failed_files] in E.
  rewrite E in G. cbn [fst snd] in G.
  destruct G as (N & A & _).
  - split; [constructor|]. split; [intros p []|].
    destruct K as (K & _). intros q. apply (K fs output_dir fs1 q Mk).
  - split; [exact N|]. intros p Hp. destruct (A p Hp). auto.
Qed.

Lemma listed_files_keeps_files : keeps_files listed_files.
Proof.
  split; [|split]; simpl.
  - intros fs dir fs' q [= <-] H. simpl. rewrite H. apply orb_true_r.
  - intros fs _ dst q H. rewrite H. apply orb_true_r.
  - intros fs _ dst _. now rewrite text_eqb_refl.
Qed.

Lemma copy_matched_pdfs_no_clobber_witness :
  exists fs' stats,
    copy_matched_pdfs listed_files
      (str "/out/isj.12345.pdf" :: test_files) (str "/out") test_batch [] false
    = Some (fs', stats)
    /\ NoDup (copied_files stats)
    /\ skipped stats = 1.
Proof.
  destruct (copy_matched_pdfs listed_files (str "/out/isj.12345.pdf" :: test_files)
              (str "/out") test_batch [] false)
    as [[fs' stats]|] eqn:E; [|vm_compute in E; discriminate].
  exists fs', stats. split; [reflexivity|].
  destruct (copy_matched_pdfs_no_clobber listed_files _ fs' (str "/out")
              test_batch [] stats listed_files_keeps_files E) as (N & _).
  split; [exact N|].
  vm_compute in E. injection E as _ <-. reflexivity.
Defined.

(** X19: every file that [copy_matched_pdfs] reports as copied is the
    destination of a [MATCHED] outcome of the batch whose source file
    existed: the output directory joined with the record's value of the
    uuid field followed by [.pdf] when a uuid field is given and the value
    is not empty, and with the name of the source file otherwise. *)
Theorem copy_matched_pdfs_destinations (F : FileSystem) (fs fs' : FS F)
  (output_dir : path) (result : BatchMatchResult) (uuid_field : text)
  (overwrite : bool) (stats : CopyStats) (p : text) :
  copy_matched_pdfs F fs output_dir result uuid_field overwrite
  = Some (fs', stats) ->
  In p (copied_files stats) ->
  exists m src,
    In m (results result) /\ status m = MATCHED
    /\ matched_pdf m = Some src
    /\ p = path_join F output_dir
             (if truthy uuid_field && truthy (get (record m) uuid_field [])
              then get (record m) uuid_field [] ++ str ".pdf"
              else path_name F src).
Proof.
  unfold copy_matched_pdfs.
  destruct (mkdir F fs output_dir) as [fs1|]; [|discriminate].
  intros [= E] Hp.
  set (good q := exists m src,
         In m (matched_results result) /\ matched_pdf m = Some src
         /\ q = path_join F output_dir (dst_name_of F uuid_field m src)).
  assert (G : forall l fsa sa,
             (forall m, In m l -> In m (matched_results result)) ->
             (forall q, In q (copied_files sa) -> good q) ->
             forall q,
               In q (copied_files
                       (snd (fold_left (copy_one F output_dir uuid_field overwrite)
                               l (fsa, sa)))) -> good q).
  { induction l as [|m l IH]; intros fsa sa Sub A; cbn [fold_left]; [exact A|].
    assert (A1 : forall q,
               In q (copied_files
                       (snd (copy_one F output_dir uuid_field overwrite (fsa, sa) m)))
               -> good q).
    { unfold copy_one.
      destruct (matched_pdf m) as [src|] eqn:Mp; [|exact A].
      destruct (negb (path_exists F fsa src)); [exact A|].
      destruct (path_exists F fsa _ && negb overwrite); [exact A|].
      destruct (copy2 F fsa src _) as [fsb [e|]]; [exact A|].
      cbn [snd copied_files]. intros q Hq.
      apply in_app_or in Hq as [Hq|[<-|[]]]; [auto|].
      exists m, src. split; [apply Sub; simpl; auto|]. auto. }
    destruct (copy_one F output_dir uuid_field overwrite (fsa, sa) m)
      as [fsb sb].
    apply IH; [|exact A1]. intros m' Hm. apply Sub. simpl. auto. }
  cbn [total copied skipped failed copied_files failed_files] in E.
  specialize (G (matched_results result) fs1
                {| total := length (matched_results result); copied := 0;
                   skipped := 0; failed := 0; copied_files := [];
                   failed_files := [] |} (fun m H => H)).
  rewrite E in G. cbn [snd copied_files] in G.
  destruct (G (fun q (H : In q []) => match H with end) p Hp)
    as (m & src & Hm & Mp & ->).
  unfold matched_results in Hm. apply filter_In in Hm as [Hm St].
  exists m, src. split; [exact Hm|]. split.
  - destruct (status m); simpl in St; congruence.
  - split; [exact Mp|]. unfold dst_name_of.
    destruct (truthy uuid_field); [|reflexivity].
    destruct (truthy (get (record m) uuid_field [])); reflexivity.
Qed.

Lemma copy_matched_pdfs_destinations_witness :
  exists m src,
    In m (results test_batch) /\ status m = MATCHED
    /\ matched_pdf m = Some src
    /\ str "/out/isj.12345.pdf"
       = path_join listed_files (str "/out")
           (if truthy (@nil ascii) && truthy (get (record m) [] [])
            then get (record m) [] [] ++ str ".pdf"
            else path_name listed_files src).
Proof.
  destruct (copy_matched_pdfs listed_files test_files (str "/out") test_batch
              [] false) as [[fs' stats]|] eqn:E; [|vm_compute in E; discriminate].
  apply (copy_matched_pdfs_destinations listed_files test_files fs' (str "/out")
           test_batch [] false stats (str "/out/isj.12345.pdf") E).
  vm_compute in E. injection E as _ <-. simpl. auto.
Defined.

(** ** exporters.CSVMerger.merge *)

Lemma value_eqb_spec (a b : option text) : reflect (a = b) (value_eqb a b).
Proof.
  destruct a as [x|], b as [y|]; simpl; try (constructor; congruence).
  destruct (text_eqb_spec x y); constructor; congruence.
Qed.

Lemma existsb_value_eqb (key : option text) (seen : list (option text)) :
  existsb (value_eqb key) seen = true <-> In key seen.
Proof.
  rewrite existsb_exists. split.
  - intros (x & Hx & E). destruct (value_eqb_spec key x); congruence.
  - intros H. exists key. split; [exact H|].
    destruct (value_eqb_spec key key); congruence.
Qed.

Lemma dict_get_set_other {V : Type} (d : list (text * V)) (key k : text)
  (value default : V) :
  k <> key -> dict_get (dict_set d key value) k default = dict_get d k default.
Proof.
  intros N. induction d as [|[k0 v0] d IH]; simpl.
  - destruct (text_eqb_spec key k); congruence.
  - destruct (text_eqb_spec k0 key) as [->|Ne]; simpl.
    + destruct (text_eqb_spec key k); congruence.
    + destruct (text_eqb_spec k0 k); [reflexivity | exact IH].
Qed.

Lemma lower_char_not_capital (c : ascii) :
  lower_char c <> "S"%char /\ lower_char c <> "D"%char.
Proof.
  destruct c as [[] [] [] [] [] [] [] []]; vm_compute; split; discriminate.
Qed.

Lemma lower_not_added_column (t : text) :
  lower t <> str "Source" /\ lower t <> str "DOI_Download_Link".
Proof.
  destruct t as [|c t]; simpl; [split; discriminate|].
  destruct (lower_char_not_capital c) as [A B].
  split; intros [= E _]; congruence.
Qed.

Lemma row_key_set_other (dedup_key column : text) (row : Row) (v : option text) :
  dedup_key <> column -> lower dedup_key <> column ->
  row_key dedup_key (dict_set row column v) = row_key dedup_key row.
Proof.
  intros A B. unfold row_key. now rewrite !dict_get_set_other.
Qed.

Lemma merge_row_invariant (source_name : text) (add_source_column add_doi_link
  deduplicate : bool) (dedup_key : text) (exclude_keys : list text)
  (all_records : list Row) (seen_keys : list (option text)) (row : Row) :
  dedup_key <> str "Source" -> dedup_key <> str "DOI_Download_Link" ->
  merge_invariant deduplicate dedup_key exclude_keys all_records seen_keys ->
  let after :=
    merge_row source_name add_source_column add_doi_link deduplicate dedup_key
      exclude_keys (all_records, seen_keys) row in
  merge_invariant deduplicate dedup_key exclude_keys (fst after) (snd after)
  /\ length (fst after) <= S (length all_records).
Proof.
  intros N1 N2 [Ex Dd]. unfold merge_row.
  destruct (lower_not_added_column dedup_key) as [L1 L2].
  destruct (excluded exclude_keys (row_key dedup_key row)) eqn:X;
    [split; [split; auto | simpl; lia]|].
  destruct (deduplicate && existsb (value_eqb (row_key dedup_key row)) seen_keys)
    eqn:S; [split; [split; auto | simpl; lia]|].
  set (row1 := if add_source_column
               then dict_set row (str "Source") (Some source_name) else row).
  set (row2 := if add_doi_link then dict_set row1 (str "DOI_Download_Link") _
               else row1).
  assert (K : row_key dedup_key row2 = row_key dedup_key row).
  { unfold row2, row1.
    destruct add_doi_link, add_source_column;
      rewrite ?row_key_set_other by assumption; reflexivity. }
  cbn [fst snd]. split; [split|rewrite length_app; simpl; lia].
  - intros r Hr. apply in_app_or in Hr as [Hr|[<-|[]]]; [auto|].
    now rewrite K.
  - intros ->. destruct (Dd eq_refl) as [M N]. simpl in S.
    rewrite map_app, M. simpl. rewrite K. split; [reflexivity|].
    apply NoDup_app; [exact N | |].
    + constructor; [intros [] | constructor].
    + intros k Hk [<-|[]].
      apply existsb_value_eqb in Hk. congruence.
Qed.

Lemma merge_rows_invariant (source_name : text) (add_source_column add_doi_link
  deduplicate : bool) (dedup_key : text) (exclude_keys : list text)
  (rows : list Row) :
  dedup_key <> str "Source" -> dedup_key <> str "DOI_Download_Link" ->
  forall all_records seen_keys,
    merge_invariant deduplicate dedup_key exclude_keys all_records seen_keys ->
    let after :=
      fold_left
        (merge_row source_name add_source_column add_doi_link deduplicate
           dedup_key exclude_keys)
        rows (all_records, seen_keys) in
    merge_invariant deduplicate dedup_key exclude_keys (fst after) (snd after)
    /\ length (fst after) <= length all_records + length rows.
Proof.
  intros N1 N2. induction rows as [|row rows IH]; intros all_records seen_keys I;
    cbn [fold_left length].
  - cbv zeta. cbn [fst snd]. split; [exact I | lia].
  - destruct (merge_row_invariant source_name add_source_column add_doi_link
                deduplicate dedup_key exclude_keys all_records seen_keys row
                N1 N2 I) as [I1 L1].
    destruct (merge_row source_name add_source_column add_doi_link deduplicate
                dedup_key exclude_keys (all_records, seen_keys) row)
      as [records1 seen1].
    cbn [fst snd] in I1, L1.
    destruct (IH records1 seen1 I1) as [I2 L2].
    cbv zeta. split; [exact I2 | lia].
Qed.

Lemma merge_file_rows (add_source_column add_doi_link deduplicate : bool)
  (dedup_key : text) (exclude_keys : list text) (all_records : list Row)
  (all_headers : option (list text)) (seen_keys : list (option text))
  (f : CsvFile) :
  let after := merge_file add_source_column add_doi_link deduplicate dedup_key
                 exclude_keys (all_records, all_headers, seen_keys) f in
  (fst (fst after), snd after)
  = fold_left
      (merge_row (before_underscore (csv_stem f)) add_source_column add_doi_link
         deduplicate dedup_key exclude_keys)
      (read_rows f) (all_records, seen_keys).
Proof.
  unfold merge_file.
  destruct (fold_left _ (read_rows f) (all_records, seen_keys)) as [r1 s1].
  reflexivity.
Qed.

Lemma merge_files_invariant (add_source_column add_doi_link deduplicate : bool)
  (dedup_key : text) (exclude_keys : list text) (csv_files : list CsvFile) :
  dedup_key <> str "Source" -> dedup_key <> str "DOI_Download_Link" ->
  forall all_records all_headers seen_keys,
    merge_invariant deduplicate dedup_key exclude_keys all_records seen_keys ->
    let after :=
      fold_left
        (merge_file add_source_column add_doi_link deduplicate dedup_key
           exclude_keys)
        csv_files (all_records, all_headers, seen_keys) in
    merge_invariant deduplicate dedup_key exclude_keys
      (fst (fst after)) (snd after)
    /\ length (fst (fst after)) <= length all_records + rows_read csv_files.
Proof.
  intros N1 N2. unfold rows_read.
  induction csv_files as [|f files IH]; intros all_records all_headers seen_keys I;
    cbn [fold_left map list_sum].
  - cbv zeta. cbn [fst snd]. split; [exact I | lia].
  - pose proof (merge_file_rows add_source_column add_doi_link deduplicate
                  dedup_key exclude_keys all_records all_headers seen_keys f)
      as E.
    destruct (merge_rows_invariant (before_underscore (csv_stem f))
                add_source_column add_doi_link deduplicate dedup_key
                exclude_keys (read_rows f) N1 N2 all_records seen_keys I)
      as [I1 L1].
    cbv zeta in E. rewrite <- E in I1, L1. cbn [fst snd] in I1, L1.
    destruct (merge_file add_source_column add_doi_link deduplicate dedup_key
                exclude_keys (all_records, all_headers, seen_keys) f)
      as [[records1 headers1] seen1].
    cbn [fst snd] in I1, L1.
    destruct (IH records1 headers1 seen1 I1) as [I2 L2].
    cbv zeta. split; [exact I2|]. unfold list_sum in *. cbn [fold_right]. lia.
Qed.

(** X20: when [merge] writes its output, no record in it has a key from
    [exclude_keys]; with [deduplicate] on, no two records have the same
    key (so at most one record without a key is kept); the number returned
    is the number of records written, and it is no more than the number of
    rows read.  The key column is assumed not to be one of the two columns
    that [merge] itself adds. *)
Theorem merge_excludes_and_deduplicates (csv_files : list CsvFile)
  (write : WriteOutcome) (add_source_column add_doi_link deduplicate : bool)
  (dedup_key : text) (exclude_keys : list text) (h : list text)
  (rows : list Row) :
  dedup_key <> str "Source" -> dedup_key <> str "DOI_Download_Link" ->
  let m := merge csv_files write add_source_column add_doi_link
             deduplicate dedup_key exclude_keys in
  merged_output m = Some (h, rows) ->
  (forall row, In row rows ->
               excluded exclude_keys (row_key dedup_key row) = false)
  /\ (deduplicate = true -> NoDup (map (row_key dedup_key) rows))
  /\ merged_count m = length rows
  /\ 0 < merged_count m <= rows_read csv_files.
Proof.
  intros N1 N2. cbv zeta. unfold merge.
  destruct (merge_files_invariant add_source_column add_doi_link deduplicate
              dedup_key exclude_keys csv_files N1 N2 [] None [])
    as [[Ex Dd] L].
  { split; [intros row [] | intros _; split; [reflexivity | constructor]]. }
  destruct (fold_left _ csv_files ([], None, [])) as [[records headers] seen].
  cbn [fst snd] in Ex, Dd, L.
  destruct records as [|r records]; [discriminate|].
  destruct write, headers as [hd|]; try discriminate.
  unfold merged_output. cbn [output_file merged_count]. intros [= <- <-].
  split; [exact Ex|]. split.
  - intros D. destruct (Dd D) as [M N]. now rewrite M.
  - split; [reflexivity|]. simpl in *. lia.
Qed.

Lemma merge_excludes_and_deduplicates_witness :
  exists h rows,
    merged_output
      (merge test_csv_files Completes false true true (str "DOI") [str "10.1/b"])
    = Some (h, rows)
    /\ NoDup (map (row_key (str "DOI")) rows)
    /\ map (row_key (str "DOI")) rows = [Some (str "10.1/a"); Some (str "10.1/c")].
Proof.
  destruct (merged_output
              (merge test_csv_files Completes false true true (str "DOI")
                 [str "10.1/b"])) as [[h rows]|] eqn:E;
    [|vm_compute in E; discriminate].
  exists h, rows. split; [reflexivity|].
  destruct (merge_excludes_and_deduplicates test_csv_files Completes false true
              true (str "DOI") [str "10.1/b"] h rows) as (_ & N & _);
    [discriminate | discriminate | exact E |].
  split; [now apply N|].
  vm_compute in E. injection E as _ <-. reflexivity.
Defined.

Lemma merge_file_header (add_source_column add_doi_link deduplicate : bool)
  (dedup_key : text) (exclude_keys : list text) (csv_files : list CsvFile) :
  forall all_records all_headers seen_keys,
    snd (fst (fold_left
                (merge_file add_source_column add_doi_link deduplicate dedup_key
                   exclude_keys)
                csv_files (all_records, all_headers, seen_keys)))
    = match all_headers with
      | Some h => Some h
      | None =>
          option_map (merged_header add_source_column add_doi_link)
            (find (fun f => negb (read_raised f)) csv_files)
      end.
Proof.
  induction csv_files as [|f files IH]; intros all_records all_headers seen_keys;
    cbn [fold_left find].
  - destruct all_headers; reflexivity.
  - unfold merge_file at 2.
    destruct (fold_left _ (read_rows f) (all_records, seen_keys)) as [r1 s1].
    rewrite IH.
    destruct (read_raised f); cbn [negb]; [reflexivity|].
    destruct all_headers; reflexivity.
Qed.

(** X21: when [merge] completes the writing of its output, nothing raised
    while writing, and the header of the output is built from the field
    names of the first input file that was read without raising, whatever
    the field names of the other files are.  When every input file raised
    while it was read, [merge] returns 0 and no record reaches the output
    file: the file is not opened, or it is opened and left empty. *)
Theorem merge_header (csv_files : list CsvFile) (write : WriteOutcome)
  (add_source_column add_doi_link deduplicate : bool)
  (dedup_key : text) (exclude_keys : list text) :
  let m := merge csv_files write add_source_column add_doi_link
             deduplicate dedup_key exclude_keys in
  (forall h rows,
      output_file m = Written h rows ->
      write = Completes
      /\ exists f,
          find (fun f => negb (read_raised f)) csv_files = Some f
          /\ h = merged_header add_source_column add_doi_link f)
  /\ (find (fun f => negb (read_raised f)) csv_files = None ->
      merged_count m = 0
      /\ (output_file m = Untouched \/ output_file m = Emptied)).
Proof.
  cbv zeta. unfold merge.
  pose proof (merge_file_header add_source_column add_doi_link deduplicate
                dedup_key exclude_keys csv_files [] None []) as H.
  destruct (fold_left _ csv_files ([], None, [])) as [[records headers] seen].
  cbn [fst snd] in H.
  destruct records as [|r records].
  { split; [discriminate | auto]. }
  split.
  - destruct write, headers as [hd|]; try discriminate.
    cbn [output_file]. intros h rows [= <- <-]. split; [reflexivity|].
    destruct (find _ csv_files) as [f|]; [|discriminate].
    injection H as ->. eauto.
  - intros F. rewrite F in H. cbn [option_map] in H. subst headers.
    destruct write; cbn [merged_count output_file]; auto.
Qed.

Lemma merge_header_witness :
  (exists rows,
      output_file
        (merge test_csv_files Completes false true true (str "DOI")
           [str "10.1/b"])
      = Written [str "Title"; str "DOI"; str "DOI_Download_Link"] rows)
  /\ output_file
       (merge broken_csv_files Completes false true true (str "DOI") [])
     = Emptied.
Proof.
  split.
  - destruct (output_file
                (merge test_csv_files Completes false true true (str "DOI")
                   [str "10.1/b"])) as [| |h rows|h rows] eqn:E;
      try (vm_compute in E; discriminate).
    destruct (merge_header test_csv_files Completes false true true (str "DOI")
                [str "10.1/b"]) as (H & _).
    destruct (H h rows E) as (_ & f & F & ->).
    vm_compute in F. injection F as <-. exists rows. reflexivity.
  - destruct (merge_header broken_csv_files Completes false true true
                (str "DOI") []) as (_ & H).
    destruct (H eq_refl) as (_ & [U|U]); [vm_compute in U; discriminate|].
    exact U.
Defined.

(** ** PDFMatcher, end to end, continued *)

Lemma outcome_status_by_length (o o' : MatchResult) :
  outcome_invariant o -> outcome_invariant o' ->
  length (matched_pdfs o) = length (matched_pdfs o') ->
  status o = status o'.
Proof.
  intros (U & M & MM & _) (U' & M' & MM' & _) L.
  destruct (matched_pdfs o) as [|a [|b l]] eqn:E;
    destruct (matched_pdfs o') as [|a' [|b' l']] eqn:E'; try discriminate L.
  - rewrite (proj1 U eq_refl), (proj1 U' eq_refl). reflexivity.
  - rewrite (proj1 M eq_refl), (proj1 M' eq_refl). reflexivity.
  - rewrite (proj1 MM), (proj1 MM'); simpl; auto; lia.
Qed.

(** X22: the outcome of a record does not depend on the order in which the
    scanned files are listed: two scan results with the same pairs give
    outcomes with the same status, the same number of locations and the
    same locations (possibly in another order). *)
Theorem match_single_record_order_free (self : PDFMatcher) (idx : nat)
  (r : LitRecord) (pdf_files pdf_files' : list (text * path)) :
  (forall e, In e pdf_files <-> In e pdf_files') ->
  let o := _match_single_record self idx r (fst (build_indexes pdf_files))
             (snd (build_indexes pdf_files)) in
  let o' := _match_single_record self idx r (fst (build_indexes pdf_files'))
              (snd (build_indexes pdf_files')) in
  (forall p, In p (matched_pdfs o) <-> In p (matched_pdfs o'))
  /\ length (matched_pdfs o) = length (matched_pdfs o')
  /\ status o = status o'.
Proof.
  intros Same o o'.
  assert (S : forall p, In p (matched_pdfs o) <-> In p (matched_pdfs o')).
  { intros p. unfold o, o'. rewrite !match_single_record_hits.
    split; intros [(n & Hin & H)|[No (n & Hin & H)]].
    - left. exists n. split; [now apply Same | exact H].
    - right. split.
      + intros n' q Hq. apply (No n' q). now apply Same.
      + exists n. split; [now apply Same | exact H].
    - left. exists n. split; [now apply Same | exact H].
    - right. split.
      + intros n' q Hq. apply (No n' q). now apply Same.
      + exists n. split; [now apply Same | exact H]. }
  pose proof (match_single_record_invariant self idx r
                (fst (build_indexes pdf_files)) (snd (build_indexes pdf_files)))
    as I.
  pose proof (match_single_record_invariant self idx r
                (fst (build_indexes pdf_files')) (snd (build_indexes pdf_files')))
    as I'.
  fold o in I. fold o' in I'.
  assert (L : length (matched_pdfs o) = length (matched_pdfs o')).
  { destruct I as (_ & _ & _ & _ & N). destruct I' as (_ & _ & _ & _ & N').
    apply Nat.le_antisymm; apply NoDup_incl_length; auto;
      intros p Hp; now apply S. }
  split; [exact S|]. split; [exact L|].
  now apply outcome_status_by_length.
Qed.

Lemma match_single_record_order_free_witness :
  status (_match_single_record test_matcher 1 test_record_2
            (fst (build_indexes (rev (scan_directory test_pdf_dir false))))
            (snd (build_indexes (rev (scan_directory test_pdf_dir false)))))
  = status (_match_single_record test_matcher 1 test_record_2
              test_title_index test_doi_index).
Proof.
  apply (match_single_record_order_free test_matcher 1 test_record_2
           (rev (scan_directory test_pdf_dir false))
           (scan_directory test_pdf_dir false)).
  intros e. symmetry. apply in_rev.
Defined.

(** X23: a scanned file with a DOI-format name is found by every record
    whose DOI field normalizes to [101111] followed by the letters and
    digits of the cleaned name, in whatever letter case the name is
    written, as soon as those letters and digits are at least 5: its path
    is among the locations of the record's outcome, which is therefore not
    [UNMATCHED]. *)
Theorem match_all_finds_doi_named_file (self : PDFMatcher) (pdfs_dir : Directory)
  (data_result : DataSourceResult) (interactive recursive_scan : bool)
  (o : MatchResult) (pdf_name : text) (p : path) :
  In o (results (match_all self pdfs_dir data_result interactive recursive_scan)) ->
  In (pdf_name, p) (scan_directory pdfs_dir recursive_scan) ->
  _is_doi_format (remove_special_encoding pdf_name) = true ->
  5 <= length (normalize (remove_special_encoding pdf_name) false) ->
  normalize (get (record o) (doi_column self) []) false
  = str "101111" ++ normalize (remove_special_encoding pdf_name) false ->
  In p (matched_pdfs o) /\ status o <> UNMATCHED.
Proof.
  intros Ho Hin D L E.
  assert (Hit : doi_hit self (record o) pdf_name = true).
  { unfold doi_hit. rewrite E.
    destruct (analyze_doi_format pdf_name D) as (k & A & K & _).
    rewrite A.
    set (c := normalize (remove_special_encoding pdf_name) false) in *.
    assert (L1 : (5 <=? length (str "101111" ++ c)) = true).
    { apply Nat.leb_le. rewrite length_app. lia. }
    rewrite L1. cbn [andb].
    destruct K as [->| ->].
    - apply Nat.leb_le in L. rewrite L. cbn [andb].
      apply contains_iff. exists (str "101111"), []. now rewrite app_nil_r.
    - rewrite L1. cbn [andb].
      apply contains_iff. exists [], []. now rewrite app_nil_r. }
  assert (P : In p (matched_pdfs o)).
  { revert Ho Hin. rewrite match_all_results.
    destruct (scan_directory pdfs_dir recursive_scan) as [|f fs] eqn:S;
      [intros _ []|].
    intros Ho Hin. apply enumerate_map_In in Ho as (i & r & _ & Eo).
    assert (Rr : record o = r).
    { rewrite Eo. unfold _match_single_record.
      destruct (fromkeys _) as [|a [|b l]]; reflexivity. }
    rewrite Eo. apply match_single_record_hits. left.
    exists pdf_name. split; [exact Hin|]. now rewrite <- Rr. }
  split; [exact P|].
  destruct (match_all_invariant _ _ _ _ _ _ Ho) as (U & _).
  intros St. apply U in St. rewrite St in P. exact P.
Qed.

Lemma match_all_finds_doi_named_file_witness :
  In (str "/pdfs/ISJ.12345.pdf")
     (matched_pdfs
        {| record_index := 0; record := test_record_2; status := MATCHED;
           matched_pdfs := [str "/pdfs/ISJ.12345.pdf"]; reason := [] |})
  /\ status
       {| record_index := 0; record := test_record_2; status := MATCHED;
          matched_pdfs := [str "/pdfs/ISJ.12345.pdf"]; reason := [] |}
     <> UNMATCHED.
Proof.
  apply (match_all_finds_doi_named_file test_matcher upper_case_dir
           {| records := [test_record_2]; headers := [];
              ds_source_name := str "test" |}
           false false
           {| record_index := 0; record := test_record_2; status := MATCHED;
              matched_pdfs := [str "/pdfs/ISJ.12345.pdf"]; reason := [] |}
           (str "ISJ.12345") (str "/pdfs/ISJ.12345.pdf")).
  - vm_compute. left. reflexivity.
  - vm_compute. left. reflexivity.
  - vm_compute. reflexivity.
  - vm_compute. lia.
  - vm_compute. reflexivity.
Defined.
